(** * Semantic search over the Marjane catalogue (Semantic_Search.py)

    A shallow embedding of [SemanticSearcher]: the text normaliser, the
    TF-IDF vectoriser it configures, the cosine ranking and the five query
    shapes, followed by the properties of the specification that were
    checked against it.

    Conventions.
    - A Python [str] is a list of Unicode code points ([text]).
    - A float is the rational it denotes ([Q]); rounding is not modelled.
      The two real-valued library functions whose values are not rational
      (the smoothed logarithm of the IDF weight and the square root of the
      row norm) are parameters of the model.
    - [np.argsort] sorts by value with a sort that is not stable: the order
      it leaves among equal values is a parameter of the model too.
    - A method that prints, reads a file or raises is a value of the monad
      [M]: the trace of events it emits and its outcome. *)

From Stdlib Require Import List ZArith NArith QArith Qabs Ascii Bool Lia.
From Stdlib Require Import Permutation Sorted.
From Stdlib Require String.
Import ListNotations.
Import String.StringSyntax.
Delimit Scope string_scope with string.

Set Implicit Arguments.
Set Warnings "-register-all".

(* ================================================================== *)
(** ** Text *)

Module Text.

Definition char : Type := N.
Definition text : Type := list char.

(** An ASCII literal as a Python string. *)
Definition txt (s : String.string) : text :=
  map N_of_ascii (String.list_ascii_of_string s).
Arguments txt s%_string.

Definition text_eqb (a b : text) : bool :=
  if list_eq_dec N.eq_dec a b then true else false.

Definition is_upper_ascii (c : char) : bool := ((65 <=? c) && (c <=? 90))%N.
Definition is_lower_ascii (c : char) : bool := ((97 <=? c) && (c <=? 122))%N.
Definition is_digit_ascii (c : char) : bool := ((48 <=? c) && (c <=? 57))%N.

(** [str.isspace] on one code point, which is also the class [\s] of a
    [str] pattern of [re]. *)
Definition isspace (c : char) : bool :=
  (((9 <=? c) && (c <=? 13)) || ((28 <=? c) && (c <=? 32))
   || (c =? 133) || (c =? 160) || (c =? 5760)
   || ((8192 <=? c) && (c <=? 8202))
   || (c =? 8232) || (c =? 8233) || (c =? 8239) || (c =? 8287)
   || (c =? 12288))%N.

Definition SPACE : char := 32%N.

(** [str.lower] on one code point.  The ASCII capitals, U+212A KELVIN SIGN
    and U+0130 (whose full lower-case mapping is [i] followed by U+0307) are
    the only code points whose lower case contains an ASCII letter.  Every
    other code point is left as it is: Python maps it to code points that
    are neither ASCII letters nor white space unless it is one itself, so the
    character filter that follows deletes or keeps the same positions. *)
Definition lower_char (c : char) : list char :=
  if is_upper_ascii c then [(c + 32)%N]
  else if (c =? 8490)%N then [107%N]
  else if (c =? 304)%N then [105%N; 775%N]
  else [c].

Definition lower (s : text) : text := flat_map lower_char s.

(** [re.sub(p, repl, s)] where [p] is a one-character class: every
    character of the class is a match of its own. *)
Fixpoint re_sub_class (cls : char -> bool) (repl s : text) : text :=
  match s with
  | [] => []
  | c :: r =>
      if cls c then repl ++ re_sub_class cls repl r
      else c :: re_sub_class cls repl r
  end.

(** [re.sub(p+, repl, s)]: the matches are the maximal runs of the class.
    [in_run] tells that the previous character belonged to the match being
    consumed. *)
Fixpoint re_sub_run (cls : char -> bool) (repl : text) (in_run : bool)
  (s : text) : text :=
  match s with
  | [] => []
  | c :: r =>
      if cls c then
        if in_run then re_sub_run cls repl true r
        else repl ++ re_sub_run cls repl true r
      else c :: re_sub_run cls repl false r
  end.

Fixpoint lstrip (s : text) : text :=
  match s with
  | [] => []
  | c :: r => if isspace c then lstrip r else s
  end.

(** [str.strip()] with no argument. *)
Definition strip (s : text) : text := rev (lstrip (rev (lstrip s))).

(** [str.join]. *)
Fixpoint join (sep : text) (l : list text) : text :=
  match l with
  | [] => []
  | [w] => w
  | w :: r => w ++ sep ++ join sep r
  end.

End Text.
Import Text.

(* ================================================================== *)
(** ** JSON values: what [json.load] yields and what a product holds *)

Inductive json : Type :=
| JNull
| JBool (b : bool)
| JInt (z : Z)
| JStr (s : text)
| JArr (l : list json)
| JObj (fields : list (text * json)).

(** A product is a JSON object; [dict_get] is [dict.get(key, default)]. *)
Definition product : Type := list (text * json).

Fixpoint dict_get (p : product) (key : text) (default : json) : json :=
  match p with
  | [] => default
  | (k, v) :: r => if text_eqb k key then v else dict_get r key default
  end.

(* ================================================================== *)
(** ** [SemanticSearcher.preprocess_text] *)

(** The class of [[^a-z\s]]. *)
Definition not_lower_nor_space (c : char) : bool :=
  negb (is_lower_ascii c || isspace c).

Definition preprocess_text (v : json) : text :=
  match v with
  | JStr s =>
      let s1 := lower s in
      let s2 := re_sub_class not_lower_nor_space [] s1 in
      strip (re_sub_run isspace [SPACE] false s2)
  | _ => []
  end.

(* ================================================================== *)
(** ** Effects: what a method prints, which files it opens, how it ends *)

Inductive exn : Type :=
| ValueError | TypeError | IndexError | KeyError
| NotFittedError | FileNotFoundError.

(** The lines a method writes on the console, by their content. *)
Inductive message : Type :=
| MsgLoading (path : text)                (* "Chargement des produits depuis ..." *)
| MsgLoaded (n : nat)                     (* "... produits charges" *)
| MsgFileNotFound (path : text)           (* "Fichier ... non trouve" *)
| MsgNoProducts                           (* "Aucun produit charge" *)
| MsgGenerating (n : nat)                 (* "Generation des embeddings TF-IDF..." *)
| MsgGenerated (rows cols : nat)          (* "Embeddings generes avec succes" *)
| MsgNoEmbeddings                         (* "Les embeddings ne sont pas generes" *)
| MsgBatchHeader (n : nat)                (* "RECHERCHE PAR BATCH (n requetes)" *)
| MsgNoCategory (category : text)         (* "Aucun produit trouve dans la categorie: ..." *)
| MsgInvalidIndex (i : Z)                 (* "Indice de produit invalide: ..." *)
| MsgExported (path : text).              (* "Resultats exportes dans ..." *)

(** One entry of a result list: the dictionary built by the query methods. *)
Record result : Type := mkResult {
  index : Z;
  titre : json;
  prix : json;
  image : json;
  similarite : Q;
  score_pourcentage : Q
}.

Inductive event : Type :=
| Print (m : message)
| Display (query : text) (results : list result)   (* display_results *)
| ReadFile (path : text)
| WriteFile (path : text).

Inductive outcome (A : Type) : Type :=
| Returned (a : A)
| Raised (e : exn).

Arguments Raised {A} e.

Module Eff.

(** The trace of events, in the order they happen, and the outcome. *)
Definition M (A : Type) : Type := (list event * outcome A)%type.

Definition ret {A} (a : A) : M A := ([], Returned a).
Definition raise {A} (e : exn) : M A := ([], Raised e).
Definition emit (e : event) : M unit := ([e], Returned tt).
Definition print (m : message) : M unit := emit (Print m).

Definition bind {A B} (m : M A) (f : A -> M B) : M B :=
  match m with
  | (t, Returned a) => let (t', r) := f a in (t ++ t', r)
  | (t, Raised e) => (t, Raised e)
  end.

Definition trace {A} (m : M A) : list event := fst m.
Definition value {A} (m : M A) : outcome A := snd m.

End Eff.

Notation "x <- m ;; k" := (Eff.bind m (fun x => k))
  (at level 61, m at next level, right associativity).
Notation "m ;;; k" := (Eff.bind m (fun _ => k))
  (at level 61, right associativity).

(** An event that touches the file system.  The program has no network
    call in this class. *)
Definition is_file_io (e : event) : bool :=
  match e with
  | ReadFile _ | WriteFile _ => true
  | _ => false
  end.

(* ================================================================== *)
(** ** What the model takes from the libraries *)

(** The frozen set behind [stop_words='english'], the two float functions
    whose values are not rational, and the order [np.argsort] leaves among
    equal values.  The default kind of [np.argsort] is not a stable sort:
    which of two indices with equal values comes first depends on the
    build of numpy and on the array.  [argsort_rank a i] is the rank that
    the sort gives the index [i] among the indices of [a] that hold the
    value [a[i]]; every order a sort by value can produce is the order of
    some rank. *)
Class Library : Type := {
  ENGLISH_STOP_WORDS : list text;
  np_log : Q -> Q;
  np_sqrt : Q -> Q;
  argsort_rank : list Q -> nat -> nat
}.

(* ================================================================== *)
(** ** numpy: comparison of floats, [argsort], slices *)

Module Numpy.

Definition Qltb (a b : Q) : bool :=
  match a ?= b with Lt => true | _ => false end.

(** [a[i]] on a 1-d array, for an index known to be in range. *)
Definition at_ (a : list Q) (i : nat) : Q := nth i a 0.

Section WithLibrary.
Context {lib : Library}.

(** The order of the sorted indices: by value, and among equal values by
    the rank the library's sort gives them (the index itself where two
    ranks are equal). *)
Definition precedes (a : list Q) (i j : nat) : bool :=
  Qltb (at_ a i) (at_ a j)
  || (Qeq_bool (at_ a i) (at_ a j)
      && ((argsort_rank a i <? argsort_rank a j)%nat
          || ((argsort_rank a i =? argsort_rank a j)%nat && (i <? j)%nat))).

(** [i] goes before the first index that it precedes. *)
Fixpoint insert_index (a : list Q) (i : nat) (sorted : list nat) : list nat :=
  match sorted with
  | [] => [i]
  | j :: r =>
      if precedes a i j then i :: j :: r
      else j :: insert_index a i r
  end.

(** [np.argsort(a)]: the indices of [a] in ascending order of value, the
    indices of equal values in the order of their ranks. *)
Definition argsort (a : list Q) : list nat :=
  fold_left (fun acc i => insert_index a i acc) (seq 0 (length a)) [].

End WithLibrary.

(** [l[:k]] for a Python integer [k]. *)
Definition slice_to {A} (k : Z) (l : list A) : list A :=
  if (0 <=? k)%Z then firstn (Z.to_nat k) l
  else firstn (Z.to_nat (Z.of_nat (length l) + k)) l.

(** [l[i:i+1]] for a Python integer [i]: the row [i], the row [len + i]
    of a negative [i] other than [-1], and nothing for [-1] (the stop is
    then [0]) or when the bounds fall outside. *)
Definition slice_one {A} (i : Z) (l : list A) : list A :=
  let n := Z.of_nat (length l) in
  let clamp (x : Z) := if (x <? 0)%Z then Z.max (n + x) 0 else Z.min x n in
  let start := clamp i in
  let stop := clamp (i + 1)%Z in
  firstn (Z.to_nat (stop - start)) (skipn (Z.to_nat start) l).

(** [a[i] = v] for a Python integer [i] with [-len <= i < len]. *)
Fixpoint set_nth (n : nat) (v : Q) (a : list Q) : list Q :=
  match a, n with
  | [], _ => []
  | _ :: r, O => v :: r
  | x :: r, S n' => x :: set_nth n' v r
  end.

Definition setitem (a : list Q) (i : Z) (v : Q) : option (list Q) :=
  let n := Z.of_nat (length a) in
  if ((0 <=? i) && (i <? n))%Z then Some (set_nth (Z.to_nat i) v a)
  else if ((- n <=? i) && (i <? 0))%Z then Some (set_nth (Z.to_nat (n + i)) v a)
  else None.

End Numpy.
Import Numpy.

(* ================================================================== *)
(** ** scikit-learn: [TfidfVectorizer] and [cosine_similarity] *)

(** The fitted state of the vectoriser: the terms in column order and the
    IDF weight of each column. *)
Record TfidfVectorizer : Type := mkVectorizer {
  vocabulary_ : list text;
  idf_ : list Q
}.

Module Sklearn.
Section WithLibrary.
Context {lib : Library}.

(** The constructor arguments of [SemanticSearcher.__init__]. *)
Definition max_features : nat := 5000.
Definition min_df : Q := 1.
Definition max_df : Q := 9 # 10.

(** [\w] on the texts this program feeds to the vectoriser, which come out
    of [preprocess_text] and hold ASCII only. *)
Definition is_word_char (c : char) : bool :=
  is_lower_ascii c || is_upper_ascii c || is_digit_ascii c || (c =? 95)%N.

Definition close_token (cur : text) : list text :=
  if (2 <=? List.length cur)%nat then [rev cur] else [].

(** [token_pattern = r"(?u)\b\w\w+\b"]: the maximal runs of word
    characters that are at least two characters long.  [cur] is the run
    being read, last character first. *)
Fixpoint tokenize_from (cur : text) (s : text) : list text :=
  match s with
  | [] => close_token cur
  | c :: r =>
      if is_word_char c then tokenize_from (c :: cur) r
      else close_token cur ++ tokenize_from [] r
  end.

Definition tokenize (s : text) : list text := tokenize_from [] s.

Definition is_stop_word (w : text) : bool :=
  existsb (text_eqb w) ENGLISH_STOP_WORDS.

Fixpoint bigrams (tokens : list text) : list text :=
  match tokens with
  | a :: ((b :: _) as r) => (a ++ [SPACE] ++ b) :: bigrams r
  | _ => []
  end.

(** [build_analyzer()] for [lowercase=True], [stop_words='english'],
    [ngram_range=(1, 2)]: the stop words are removed before the word pairs
    are formed. *)
Definition analyze (doc : text) : list text :=
  let tokens := filter (fun w => negb (is_stop_word w)) (tokenize (lower doc)) in
  tokens ++ bigrams tokens.

(** Python's [<] on strings. *)
Fixpoint text_ltb (a b : text) : bool :=
  match a, b with
  | _, [] => false
  | [], _ :: _ => true
  | x :: a', y :: b' => (x <? y)%N || ((x =? y)%N && text_ltb a' b')
  end.

Fixpoint insert_term (t : text) (l : list text) : list text :=
  match l with
  | [] => [t]
  | u :: r =>
      if text_eqb t u then l
      else if text_ltb t u then t :: l
      else u :: insert_term t r
  end.

(** The terms of the corpus, each once, in sorted order
    ([_count_vocab] followed by [_sort_features]). *)
Definition sorted_terms (docs : list (list text)) : list text :=
  fold_right insert_term [] (concat docs).

Definition count_term (t : text) (terms : list text) : nat :=
  List.length (filter (text_eqb t) terms).

Definition document_frequency (t : text) (docs : list (list text)) : nat :=
  List.length (filter (fun d => existsb (text_eqb t) d) docs).

Definition total_frequency (t : text) (docs : list (list text)) : nat :=
  count_term t (concat docs).

Definition Qnat (n : nat) : Q := inject_Z (Z.of_nat n).

(** [_limit_features]: the mask of the document-frequency bounds, then,
    when more than [max_features] terms pass it, the [max_features] terms
    of highest total count. *)
Definition limit_features (docs : list (list text)) (vocab : list text)
  : list text :=
  let high := max_df * Qnat (List.length docs) in
  let masked :=
    filter (fun t =>
              let df := Qnat (document_frequency t docs) in
              Qle_bool min_df df && Qle_bool df high) vocab in
  if (max_features <? List.length masked)%nat then
    let tfs := map (fun t => - Qnat (total_frequency t docs)) masked in
    let keep := firstn max_features (argsort tfs) in
    map snd
      (filter (fun p => existsb (Nat.eqb (fst p)) keep)
         (combine (seq 0 (List.length masked)) masked))
  else masked.

(** The smoothed weight [ln((1 + n) / (1 + df)) + 1]. *)
Definition idf_weight (n df : nat) : Q :=
  np_log ((1 + Qnat n) / (1 + Qnat df)) + 1.

Definition dot (a b : list Q) : Q :=
  fold_right Qplus 0 (map (fun p => fst p * snd p) (combine a b)).

(** [normalize(X, norm='l2')] on one row: a row of norm zero is divided
    by one. *)
Definition normalize_row (a : list Q) : list Q :=
  let n := np_sqrt (dot a a) in
  let n' := if Qeq_bool n 0 then 1 else n in
  map (fun x => x / n') a.

(** One row of the TF-IDF matrix: counts, times the weights, normalised. *)
Definition tfidf_row (v : TfidfVectorizer) (terms : list text) : list Q :=
  normalize_row
    (map (fun p => Qnat (count_term (fst p) terms) * snd p)
       (combine (vocabulary_ v) (idf_ v))).

(** [fit_transform(raw_documents).toarray()], with the fitted state. *)
Definition fit_transform (raw : list text)
  : Eff.M (TfidfVectorizer * list (list Q)) :=
  let docs := map analyze raw in
  match sorted_terms docs with
  | [] => Eff.raise ValueError          (* empty vocabulary *)
  | vocab0 =>
      if Qltb (max_df * Qnat (List.length raw)) min_df
      then Eff.raise ValueError         (* max_df below min_df *)
      else
        match limit_features docs vocab0 with
        | [] => Eff.raise ValueError    (* no terms remain after pruning *)
        | vocab =>
            let idf :=
              map (fun t => idf_weight (List.length raw)
                              (document_frequency t docs)) vocab in
            let v := mkVectorizer vocab idf in
            Eff.ret (v, map (tfidf_row v) docs)
        end
  end.

(** [transform([doc]).toarray()[0]]. *)
Definition transform (v : option TfidfVectorizer) (doc : text)
  : Eff.M (list Q) :=
  match v with
  | None => Eff.raise NotFittedError
  | Some v => Eff.ret (tfidf_row v (analyze doc))
  end.

(** [cosine_similarity(X, Y)]: both arguments need a row; the rows are
    normalised again and multiplied. *)
Definition cosine_row (x y : list Q) : Q :=
  dot (normalize_row x) (normalize_row y).

Definition cosine_similarity (X Y : list (list Q)) : Eff.M (list (list Q)) :=
  match X, Y with
  | [], _ | _, [] => Eff.raise ValueError
  | _, _ => Eff.ret (map (fun x => map (cosine_row x) Y) X)
  end.

End WithLibrary.
End Sklearn.
Import Sklearn.

(* ================================================================== *)
(** ** The files the program reads *)

(** A cell of a [pandas] column of labels; [None] is a missing value. *)
Definition cell : Type := option text.

(** A data frame read by [pd.read_csv], reduced to the column the search
    uses; [None] when the file has no column of that name.  Its index is
    the default one, the row numbers. *)
Record DataFrame : Type := mkDataFrame {
  categorie : option (list cell)
}.

Record filesystem : Type := mkFs {
  json_files : text -> option (list product);
  csv_files : text -> option DataFrame
}.

Definition CLEAN_CSV : text := txt "produits_marjane_clean.csv".

(* ================================================================== *)
(** ** [SemanticSearcher] *)

Record SemanticSearcher : Type := mkSearcher {
  vectorizer : option TfidfVectorizer;   (* [None]: not fitted yet *)
  products : list product;
  embeddings : option (list (list Q));   (* [None] is Python's [None] *)
  titles : list json
}.

(** A Python [dict] keyed by strings: insertion order, one entry per key. *)
Definition dict (V : Type) : Type := list (text * V).

Fixpoint dict_set {V} (d : dict V) (k : text) (v : V) : dict V :=
  match d with
  | [] => [(k, v)]
  | (k', v') :: r =>
      if text_eqb k' k then (k', v) :: r else (k', v') :: dict_set r k v
  end.

Fixpoint dict_lookup {V} (d : dict V) (k : text) : option V :=
  match d with
  | [] => None
  | (k', v) :: r => if text_eqb k' k then Some v else dict_lookup r k
  end.

Definition dict_keys {V} (d : dict V) : list text := map fst d.

Section Searcher.
Context {lib : Library}.

(** [__init__], without its two printed lines. *)
Definition init : SemanticSearcher := mkSearcher None [] None [].

Definition load_products (fs : filesystem) (self : SemanticSearcher)
  (json_file : text) : Eff.M (SemanticSearcher * bool) :=
  Eff.print (MsgLoading json_file) ;;;
  Eff.emit (ReadFile json_file) ;;;
  match json_files fs json_file with
  | Some ps =>
      let self' :=
        mkSearcher (vectorizer self) ps (embeddings self)
          (map (fun p => dict_get p (txt "title") (JStr [])) ps) in
      Eff.print (MsgLoaded (List.length ps)) ;;;
      Eff.ret (self', true)
  | None =>
      Eff.print (MsgFileNotFound json_file) ;;;
      Eff.ret (self, false)
  end.

Definition generate_embeddings (self : SemanticSearcher)
  : Eff.M (SemanticSearcher * bool) :=
  match products self with
  | [] => Eff.print MsgNoProducts ;;; Eff.ret (self, false)
  | _ =>
      Eff.print (MsgGenerating (List.length (titles self))) ;;;
      let processed_titles := map preprocess_text (titles self) in
      fitted <- fit_transform processed_titles ;;
      let self' :=
        mkSearcher (Some (fst fitted)) (products self) (Some (snd fitted))
          (titles self) in
      Eff.print (MsgGenerated (List.length (snd fitted))
                   (List.length (vocabulary_ (fst fitted)))) ;;;
      Eff.ret (self', true)
  end.

(** The dictionary appended to [results] for the row [idx]. *)
Definition make_result (idx : nat) (p : product) (s : Q) : result :=
  mkResult (Z.of_nat idx)
    (dict_get p (txt "title") (JStr []))
    (dict_get p (txt "price") (JStr []))
    (dict_get p (txt "image") (JStr []))
    s (s * 100).

(** [self.products[idx]]. *)
Definition get_product (self : SemanticSearcher) (idx : nat) : Eff.M product :=
  match nth_error (products self) idx with
  | Some p => Eff.ret p
  | None => Eff.raise IndexError
  end.

(** The loop of [search]: a row is kept when its similarity is above 0. *)
Fixpoint search_loop (self : SemanticSearcher) (similarities : list Q)
  (top_indices : list nat) : Eff.M (list result) :=
  match top_indices with
  | [] => Eff.ret []
  | idx :: rest =>
      if Qltb 0 (at_ similarities idx) then
        p <- get_product self idx ;;
        results <- search_loop self similarities rest ;;
        Eff.ret (make_result idx p (at_ similarities idx) :: results)
      else search_loop self similarities rest
  end.

Definition search (self : SemanticSearcher) (query : text) (top_k : Z)
  : Eff.M (list result) :=
  match embeddings self with
  | None => Eff.print MsgNoEmbeddings ;;; Eff.ret []
  | Some E =>
      let processed_query := preprocess_text (JStr query) in
      query_embedding <- transform (vectorizer self) processed_query ;;
      sims <- cosine_similarity [query_embedding] E ;;
      let similarities := hd [] sims in
      let top_indices := slice_to top_k (rev (argsort similarities)) in
      search_loop self similarities top_indices
  end.

(** [display_results] prints and returns nothing. *)
Definition display_results (results : list result) (query : text)
  : Eff.M unit :=
  Eff.emit (Display query results).

Fixpoint batch_loop (self : SemanticSearcher) (top_k : Z)
  (queries : list text) (batch_results : dict (list result))
  : Eff.M (dict (list result)) :=
  match queries with
  | [] => Eff.ret batch_results
  | query :: rest =>
      results <- search self query top_k ;;
      display_results results query ;;;
      batch_loop self top_k rest (dict_set batch_results query results)
  end.

Definition batch_search (self : SemanticSearcher) (queries : list text)
  (top_k : Z) : Eff.M (dict (list result)) :=
  Eff.print (MsgBatchHeader (List.length queries)) ;;;
  batch_loop self top_k queries [].

(** [df[df['categorie'] == category].index.tolist()]. *)
Fixpoint matching_rows (category : text) (from : nat) (col : list cell)
  : list nat :=
  match col with
  | [] => []
  | c :: r =>
      match c with
      | Some label =>
          if text_eqb label category
          then from :: matching_rows category (S from) r
          else matching_rows category (S from) r
      | None => matching_rows category (S from) r
      end
  end.

(** [self.embeddings[category_indices]]. *)
Definition take_rows (E : list (list Q)) (rows : list nat)
  : Eff.M (list (list Q)) :=
  if forallb (fun i => (i <? List.length E)%nat) rows
  then Eff.ret (map (fun i => nth i E []) rows)
  else Eff.raise IndexError.

(** The loop of [search_by_category] over [enumerate(top_global_indices)],
    each global index with the local one at the same position. *)
Fixpoint category_loop (self : SemanticSearcher) (similarities : list Q)
  (pairs : list (nat * nat)) : Eff.M (list result) :=
  match pairs with
  | [] => Eff.ret []
  | (local_idx, global_idx) :: rest =>
      p <- get_product self global_idx ;;
      results <- category_loop self similarities rest ;;
      Eff.ret (make_result global_idx p (at_ similarities local_idx) :: results)
  end.

Definition search_by_category (fs : filesystem) (self : SemanticSearcher)
  (query category : text) (top_k : Z) : Eff.M (list result) :=
  Eff.emit (ReadFile CLEAN_CSV) ;;;
  match csv_files fs CLEAN_CSV with
  | None => Eff.print (MsgFileNotFound CLEAN_CSV) ;;; Eff.ret []
  | Some df =>
      match categorie df with
      | None => Eff.raise KeyError
      | Some col =>
          match matching_rows category 0 col with
          | [] => Eff.print (MsgNoCategory category) ;;; Eff.ret []
          | category_indices =>
              let processed_query := preprocess_text (JStr query) in
              query_embedding <- transform (vectorizer self) processed_query ;;
              match embeddings self with
              | None => Eff.raise TypeError
              | Some E =>
                  category_embeddings <- take_rows E category_indices ;;
                  sims <- cosine_similarity [query_embedding] category_embeddings ;;
                  let similarities := hd [] sims in
                  let top_local_indices :=
                    slice_to top_k (rev (argsort similarities)) in
                  let top_global_indices :=
                    map (fun i => nth i category_indices O) top_local_indices in
                  category_loop self similarities
                    (combine top_local_indices top_global_indices)
              end
          end
      end
  end.

(** The loop of [similar_products]: every selected row is appended. *)
Fixpoint similar_loop (self : SemanticSearcher) (similarities : list Q)
  (top_indices : list nat) : Eff.M (list result) :=
  match top_indices with
  | [] => Eff.ret []
  | idx :: rest =>
      p <- get_product self idx ;;
      results <- similar_loop self similarities rest ;;
      Eff.ret (make_result idx p (at_ similarities idx) :: results)
  end.

Definition similar_products (self : SemanticSearcher) (product_index : Z)
  (top_k : Z) : Eff.M (list result) :=
  if (Z.of_nat (List.length (products self)) <=? product_index)%Z then
    Eff.print (MsgInvalidIndex product_index) ;;; Eff.ret []
  else
    match embeddings self with
    | None => Eff.raise TypeError
    | Some E =>
        let product_embedding := slice_one product_index E in
        sims <- cosine_similarity product_embedding E ;;
        match setitem (hd [] sims) product_index (- (1)) with
        | None => Eff.raise IndexError
        | Some similarities =>
            let top_indices := slice_to top_k (rev (argsort similarities)) in
            similar_loop self similarities top_indices
        end
    end.

Definition export_results {V} (results : dict V) (filename : text)
  : Eff.M unit :=
  Eff.emit (WriteFile filename) ;;;
  Eff.print (MsgExported filename).

End Searcher.

(* ================================================================== *)
(** ** The console: the bar of [display_results], [interactive_search]
    and [main] *)

(** [int(x)] on a float: its integer part, rounded toward zero. *)
Definition int_of_float (x : Q) : Z := Z.quot (Qnum x) (Zpos (Qden x)).

(** [c * n] for a string [c] of one character: empty when [n <= 0]. *)
Definition str_repeat (c : char) (n : Z) : text := repeat c (Z.to_nat n).

Definition FULL_BLOCK : char := 9608%N.     (* U+2588 *)
Definition LIGHT_SHADE : char := 9617%N.    (* U+2591 *)

(** The bar that [display_results] draws between the brackets of the
    line of one result. *)
Definition bar_length (r : result) : Z :=
  int_of_float (score_pourcentage r / 5).

Definition bar (r : result) : text :=
  str_repeat FULL_BLOCK (bar_length r)
  ++ str_repeat LIGHT_SHADE (20 - bar_length r).

(** The fixed lines that [interactive_search] and [main] print, by their
    content. *)
Inductive notice : Type :=
| NoteMainHeader          (* "SEMANTIC SEARCH AVEC TF-IDF" *)
| NoteInit                (* the lines of [__init__] *)
| NoteExamples            (* "EXEMPLES DE RECHERCHES SEMANTIQUES" *)
| NoteInteractiveOffer    (* "MODE INTERACTIF", "Voulez-vous essayer ..." *)
| NoteThanks              (* "Merci d'avoir utilise le Semantic Search!" *)
| NoteProgramEnd          (* "PROGRAMME TERMINE" *)
| NoteInteractiveHeader   (* "MODE DE RECHERCHE INTERACTIF", "Tapez ..." *)
| NoteGoodbye             (* "Au revoir!" *)
| NoteInvalidQuery.       (* "Veuillez entrer une requete valide" *)

Inductive prompt : Type :=
| PromptSearch            (* "Votre recherche: " *)
| PromptAnswer.           (* "Reponse: " *)

(** What a console session does, in order: the events of the methods it
    calls, its own lines, and its calls of [input]. *)
Inductive action : Type :=
| Method (e : event)
| Say (n : notice)
| Input (p : prompt).

(** How a session ends early: an exception of a method, or [EOFError]
    from [input] when the standard input is exhausted. *)
Inductive failure : Type :=
| Exn (e : exn)
| EOFError.

Inductive ended (A : Type) : Type :=
| Done (a : A)
| Failed (f : failure).

Arguments Failed {A} f.

Module Session.

(** A session reads the lines of the standard input that are left and
    gives its actions, how it ended, and the lines it did not read. *)
Definition M (A : Type) : Type :=
  list text -> (list action * ended A) * list text.

Definition ret {A} (a : A) : M A := fun stdin => ([], Done a, stdin).

Definition say (n : notice) : M unit := fun stdin => ([Say n], Done tt, stdin).

(** [input(prompt)]: one line without its end of line. *)
Definition input (p : prompt) : M text :=
  fun stdin =>
    match stdin with
    | [] => ([Input p], Failed EOFError, [])
    | line :: rest => ([Input p], Done line, rest)
    end.

(** A call of a method of the searcher. *)
Definition call {A} (m : Eff.M A) : M A :=
  fun stdin =>
    (map Method (Eff.trace m),
     match Eff.value m with
     | Returned a => Done a
     | Raised e => Failed (Exn e)
     end,
     stdin).

Definition bind {A B} (m : M A) (f : A -> M B) : M B :=
  fun stdin =>
    match m stdin with
    | (t, Done a, rest) =>
        match f a rest with
        | (t', r, rest') => (t ++ t', r, rest')
        end
    | (t, Failed e, rest) => (t, Failed e, rest)
    end.

Definition actions {A} (r : (list action * ended A) * list text)
  : list action := fst (fst r).
Definition result_of {A} (r : (list action * ended A) * list text)
  : ended A := snd (fst r).
Definition unread {A} (r : (list action * ended A) * list text)
  : list text := snd r.

End Session.

Notation "x <~ m ;; k" := (Session.bind m (fun x => k))
  (at level 61, m at next level, right associativity).
Notation "m ~;; k" := (Session.bind m (fun _ => k))
  (at level 61, right associativity).

(** The default arguments of [load_products] and [export_results], and the
    queries of [main]. *)
Definition DEFAULT_JSON : text := txt "produits_marjane.json".
Definition DEFAULT_EXPORT : text := txt "search_results.json".

Definition test_queries : list text :=
  [txt "produits de beaut" ++ [233%N];
   [233%N] ++ txt "lectronique pas cher";
   txt "chocolat et bonbons";
   txt "nettoyage de maison";
   txt "produits bio"].

Section Console.
Context {lib : Library}.

(** The loop of [interactive_search], one turn for each line read.  The
    comparison with ['quit'] sees [str.lower] through [lower]: the two
    agree on whether the result is an ASCII word. *)
Fixpoint interactive_loop (self : SemanticSearcher) (stdin : list text)
  : (list action * ended unit) * list text :=
  match stdin with
  | [] => ([Input PromptSearch], Failed EOFError, [])
  | line :: rest =>
      let query := strip line in
      if text_eqb (lower query) (txt "quit") then
        ([Input PromptSearch; Say NoteGoodbye], Done tt, rest)
      else
        match query with
        | [] =>
            match interactive_loop self rest with
            | (t, r, rest') =>
                (Input PromptSearch :: Say NoteInvalidQuery :: t, r, rest')
            end
        | _ =>
            match (results <- search self query 5 ;;
                   display_results results query) with
            | (t, Returned _) =>
                match interactive_loop self rest with
                | (t', r, rest') =>
                    (Input PromptSearch :: map Method t ++ t', r, rest')
                end
            | (t, Raised e) =>
                (Input PromptSearch :: map Method t, Failed (Exn e), rest)
            end
        end
  end.

Definition interactive_search (self : SemanticSearcher) : Session.M unit :=
  Session.say NoteInteractiveHeader ~;;
  interactive_loop self.

Definition main (fs : filesystem) : Session.M unit :=
  Session.say NoteMainHeader ~;;
  Session.say NoteInit ~;;
  let searcher := init in
  loaded <~ Session.call (load_products fs searcher DEFAULT_JSON) ;;
  let (searcher, ok) := (loaded : SemanticSearcher * bool) in
  if negb ok then Session.ret tt else
  built <~ Session.call (generate_embeddings searcher) ;;
  let (searcher, ok) := (built : SemanticSearcher * bool) in
  if negb ok then Session.ret tt else
  Session.say NoteExamples ~;;
  batch_results <~ Session.call (batch_search searcher test_queries 3) ;;
  Session.call (export_results batch_results DEFAULT_EXPORT) ~;;
  Session.say NoteInteractiveOffer ~;;
  line <~ Session.input PromptAnswer ;;
  let response := lower (strip line) in
  (if existsb (text_eqb response) [txt "oui"; txt "yes"; txt "o"; txt "y"]
   then interactive_search searcher
   else Session.say NoteThanks) ~;;
  Session.say NoteProgramEnd.

End Console.

(* ================================================================== *)
(** ** The normaliser as the specification words it

    "lowercase; strip every character that is not a lowercase Latin letter
    or whitespace; collapse runs of whitespace to a single space; trim
    leading/trailing whitespace".  Written independently of the regular
    expressions of the source, to be compared with [preprocess_text]. *)

Module NormalizerSpec.

Definition keep_char (c : char) : bool := is_lower_ascii c || isspace c.

Definition strip_other (s : text) : text := filter keep_char s.

(** One space for each maximal run of white space, put where the run ends. *)
Fixpoint collapse_whitespace (s : text) : text :=
  match s with
  | [] => []
  | c :: r =>
      if isspace c then
        match r with
        | [] => [SPACE]
        | c2 :: _ =>
            if isspace c2 then collapse_whitespace r
            else SPACE :: collapse_whitespace r
        end
      else c :: collapse_whitespace r
  end.

Fixpoint trim_left (s : text) : text :=
  match s with
  | [] => []
  | c :: r => if isspace c then trim_left r else c :: r
  end.

Fixpoint trim_right (s : text) : text :=
  match s with
  | [] => []
  | c :: r =>
      match trim_right r with
      | [] => if isspace c then [] else [c]
      | r' => c :: r'
      end
  end.

Definition trim (s : text) : text := trim_right (trim_left s).

Definition normalize (s : text) : text :=
  trim (collapse_whitespace (strip_other (lower s))).

End NormalizerSpec.

(* ================================================================== *)
(** ** A small catalogue to run the model on

    Three products whose titles hold one indexed word each, so that every
    row of the matrix has a single non-zero entry and normalises to a unit
    vector whatever the IDF weight is.  The two float functions are
    instantiated by rational stand-ins: a square root that is exact on
    squares, and the first Pade term of the logarithm. *)

Module Examples.

Definition sqrt_on_squares (x : Q) : Q :=
  match Qnum x with
  | Zpos p => Zpos (Pos.sqrt p) # Pos.sqrt (Qden x)
  | _ => 0
  end.

Definition log_pade (x : Q) : Q := (2 * (x - 1)) / (x + 1).

(** An excerpt of scikit-learn's [ENGLISH_STOP_WORDS]. *)
Definition stop_words_excerpt : list text :=
  [txt "the"; txt "and"; txt "of"; txt "for"; txt "with"; txt "to"; txt "in"].

(** The ranks of a sort that leaves equal values in index order. *)
Definition index_order (a : list Q) (i : nat) : nat := 0.

Definition sample_library : Library :=
  {| ENGLISH_STOP_WORDS := stop_words_excerpt;
     np_log := log_pade;
     np_sqrt := sqrt_on_squares;
     argsort_rank := index_order |}.

(** The same library with a sort that leaves equal values in the opposite
    order. *)
Definition reverse_index_order (a : list Q) (i : nat) : nat :=
  (List.length a - i)%nat.

Definition reversing_library : Library :=
  {| ENGLISH_STOP_WORDS := stop_words_excerpt;
     np_log := log_pade;
     np_sqrt := sqrt_on_squares;
     argsort_rank := reverse_index_order |}.

Definition item (title price : text) : product :=
  [(txt "title", JStr title); (txt "price", JStr price);
   (txt "image", JStr (txt "https://www.marjane.ma/img.png"))].

Definition catalog : list product :=
  [item (txt "The Lait") (txt "9,50 DH");
   item (txt "Lait") (txt "8 DH");
   item (txt "Savon") (txt "12 DH")].

Definition PRODUCTS_JSON : text := txt "produits_marjane.json".

Definition ALIMENTAIRE : text := txt "Alimentaire".
Definition HYGIENE : text :=
  txt "Hygi" ++ [232%N] ++ txt "ne & Beaut" ++ [233%N].

Definition disk : filesystem :=
  {| json_files := fun p =>
       if text_eqb p PRODUCTS_JSON then Some catalog else None;
     csv_files := fun p =>
       if text_eqb p CLEAN_CSV
       then Some (mkDataFrame (Some [Some ALIMENTAIRE; Some ALIMENTAIRE;
                                     Some HYGIENE]))
       else None |}.

(** The state a step returned, or [self] when it raised. *)
Definition state_after (self : SemanticSearcher)
  (m : Eff.M (SemanticSearcher * bool)) : SemanticSearcher :=
  match Eff.value m with
  | Returned (s, _) => s
  | Raised _ => self
  end.

(** [searcher = SemanticSearcher(); searcher.load_products()]. *)
Definition loaded : SemanticSearcher :=
  state_after (@init) (@load_products disk (@init) PRODUCTS_JSON).

(** [searcher.generate_embeddings()] after the load. *)
Definition built : SemanticSearcher :=
  state_after loaded (@generate_embeddings sample_library loaded).

(** The list a query returned, or the empty list when it raised. *)
Definition results_of (m : Eff.M (list result)) : list result :=
  match Eff.value m with
  | Returned rs => rs
  | Raised _ => []
  end.

(** [searcher.search("lait")]: the two milk products, which tie. *)
Definition lait_results : list result :=
  Eval vm_compute in results_of (@search sample_library built (txt "lait") 5).

(** [searcher.search_by_category("lait", "Alimentaire")]. *)
Definition lait_category_results : list result :=
  Eval vm_compute in
    results_of (@search_by_category sample_library disk built (txt "lait")
                  ALIMENTAIRE 5).

End Examples.

(* ================================================================== *)
(** ** The vocabulary of the statements *)

(** A trace with no file event: only console output. *)
Definition console_only (t : list event) : Prop :=
  Forall (fun e => is_file_io e = false) t.

(** Ascending by value: what [np.argsort] guarantees of two indices. *)
Definition ascending (a : list Q) (i j : nat) : Prop := at_ a i <= at_ a j.

(** The order the specification asks of a result list: higher score first,
    and the smaller row index first among equal scores. *)
Definition ranked_as_specified (r1 r2 : result) : Prop :=
  similarite r2 < similarite r1
  \/ (similarite r1 == similarite r2 /\ (index r1 < index r2)%Z).

(** The order the code produces: no entry is followed by one of higher
    score.  Nothing is said of two entries of equal score. *)
Definition ranked_by_score (r1 r2 : result) : Prop :=
  similarite r2 <= similarite r1.

(** The states [load_products] and [generate_embeddings] lead to: when the
    matrix exists the vectoriser is fitted, and the matrix has a row for
    each product and at least one. *)
Definition well_formed (self : SemanticSearcher) : Prop :=
  match embeddings self with
  | None => True
  | Some E =>
      vectorizer self <> None /\ E <> []
      /\ List.length E = List.length (products self)
  end.

(** The distinct elements of a sequence, each at its first occurrence. *)
Fixpoint first_occurrences (l : list text) : list text :=
  match l with
  | [] => []
  | q :: r => q :: filter (fun x => negb (text_eqb x q)) (first_occurrences r)
  end.

(** The entry a loop builds for the row [idx] with the scores [sims]. *)
Definition result_at (self : SemanticSearcher) (sims : list Q) (idx : nat)
  : result :=
  make_result idx (nth idx (products self) []) (at_ sims idx).

(** The rows a query method selects: [np.argsort(sims)[::-1][:top_k]]. *)
Definition top {lib : Library} (sims : list Q) (top_k : Z) : list nat :=
  slice_to top_k (rev (argsort sims)).

(** The projection of a query and its scores against the rows [E]. *)
Definition query_vector {lib : Library} (v : TfidfVectorizer) (query : text)
  : list Q :=
  tfidf_row v (analyze (preprocess_text (JStr query))).

Definition scores {lib : Library} (v : TfidfVectorizer) (E : list (list Q))
  (query : text) : list Q :=
  map (cosine_row (query_vector v query)) E.

Definition positive (sims : list Q) (idx : nat) : bool :=
  Qltb 0 (at_ sims idx).

(** The scores of a query against the rows [cat] of a category, and the
    entry built for the local rank [l]. *)
Definition category_scores {lib : Library} (v : TfidfVectorizer)
  (E : list (list Q)) (cat : list nat) (query : text) : list Q :=
  map (cosine_row (query_vector v query)) (map (fun i => nth i E []) cat).

Definition category_result (self : SemanticSearcher) (cat : list nat)
  (sims : list Q) (l : nat) : result :=
  make_result (nth l cat O) (nth (nth l cat O) (products self) [])
    (at_ sims l).

(** The index and the score of each entry of a returned result list, the
    scores in lowest terms. *)
Definition ranking (m : Eff.M (list result)) : option (list (Z * Q)) :=
  match Eff.value m with
  | Returned rs => Some (map (fun r => (index r, Qred (similarite r))) rs)
  | Raised _ => None
  end.

(** Membership of a string in a list of strings. *)
Definition mem (q : text) (l : list text) : bool := existsb (text_eqb q) l.

(** The list [search] returns, or the empty list when it raises. *)
Definition search_value {lib : Library} (self : SemanticSearcher)
  (query : text) (top_k : Z) : list result :=
  match Eff.value (search self query top_k) with
  | Returned rs => rs
  | Raised _ => []
  end.

(** A vector whose entries are all zero. *)
Definition all_zero (a : list Q) : Prop := Forall (fun x => x == 0) a.

(** The scores [similar_products] ranks for the row [i]: the cosine of
    every row with the row [i], and the sentinel [-1] at [i] itself. *)
Definition self_scores {lib : Library} (E : list (list Q)) (i : nat)
  : list Q :=
  set_nth i (- (1)) (map (cosine_row (nth i E [])) E).

(** A text of lowercase ASCII letters and single spaces: no two spaces in
    a row, and none at the end unless [may_end_on_space].  [prev_space]
    tells that the character before was a space. *)
Fixpoint spaced (may_end_on_space prev_space : bool) (s : text) : bool :=
  match s with
  | [] => may_end_on_space || negb prev_space
  | c :: r =>
      if is_lower_ascii c then spaced may_end_on_space false r
      else if (c =? SPACE)%N
           then negb prev_space && spaced may_end_on_space true r
           else false
  end.

(** Words of lowercase ASCII letters separated by single spaces, with no
    space at either end; the empty text is one of them. *)
Definition normal (s : text) : bool :=
  match s with
  | [] => true
  | _ => spaced false true s
  end.




Definition written (t : list action) : list text :=
  flat_map (fun a => match a with
                     | Method (WriteFile path) => [path]
                     | _ => []
                     end) t.

(** The end of [main], from the offer of the interactive mode on. *)
Definition after_export {lib : Library} (searcher : SemanticSearcher) : Session.M unit :=
  Session.say NoteInteractiveOffer ~;;
  line <~ Session.input PromptAnswer ;;
  let response := lower (strip line) in
  (if existsb (text_eqb response) [txt "oui"; txt "yes"; txt "o"; txt "y"]
   then interactive_search searcher
   else Session.say NoteThanks) ~;;
  Session.say NoteProgramEnd.

(** The position of [i] in [p]. *)
Fixpoint position (i : nat) (p : list nat) : nat :=
  match p with
  | [] => 0
  | x :: r => if (i =? x)%nat then 0 else S (position i r)
  end.

(** The library [lib] with a sort that ranks the indices as [p] lists
    them. *)
Definition with_order (lib : Library) (p : list nat) : Library :=
  {| ENGLISH_STOP_WORDS := @ENGLISH_STOP_WORDS lib;
     np_log := @np_log lib;
     np_sqrt := @np_sqrt lib;
     argsort_rank := fun _ i => position i p |}.

(** The rows of the data frame whose category is [category]. *)
Definition in_category (fs : filesystem) (category : text) (row : nat) : Prop :=
  exists df col,
    csv_files fs CLEAN_CSV = Some df /\ categorie df = Some col
    /\ nth_error col row = Some (Some category).

(* ================================================================== *)
(** * Properties *)

(** ** The text normaliser *)

Module NormalizerFacts.
Import NormalizerSpec.

Lemma re_sub_class_delete (s : text) :
  re_sub_class not_lower_nor_space [] s = strip_other s.
Proof.
  induction s as [|c r IH]; simpl; [reflexivity|].
  unfold not_lower_nor_space, keep_char in *.
  destruct (is_lower_ascii c || isspace c); simpl; now rewrite IH.
Qed.

(** The run-by-run substitution of the source and the collapse of the
    specification agree, both at the start of a text and right after a
    white-space character. *)
Lemma re_sub_run_collapse (s : text) :
  re_sub_run isspace [SPACE] false s = collapse_whitespace s
  /\ (forall c, isspace c = true ->
        SPACE :: re_sub_run isspace [SPACE] true s = collapse_whitespace (c :: s)).
Proof.
  induction s as [|c r [IH0 IH1]].
  - split; [reflexivity|]. intros c Hc. simpl. now rewrite Hc.
  - split.
    + simpl re_sub_run. destruct (isspace c) eqn:Hc.
      * simpl app. now apply IH1.
      * simpl. rewrite Hc. now rewrite IH0.
    + intros c0 Hc0. simpl re_sub_run.
      destruct (isspace c) eqn:Hc.
      * rewrite (IH1 c Hc).
        change (collapse_whitespace (c0 :: c :: r))
          with (if isspace c0
                then if isspace c then collapse_whitespace (c :: r)
                     else SPACE :: collapse_whitespace (c :: r)
                else c0 :: collapse_whitespace (c :: r)).
        now rewrite Hc0, Hc.
      * change (collapse_whitespace (c0 :: c :: r))
          with (if isspace c0
                then if isspace c then collapse_whitespace (c :: r)
                     else SPACE :: collapse_whitespace (c :: r)
                else c0 :: collapse_whitespace (c :: r)).
        rewrite Hc0, Hc. simpl. rewrite Hc. now rewrite IH0.
Qed.

Lemma lstrip_trim_left (s : text) : lstrip s = trim_left s.
Proof.
  induction s as [|c r IH]; simpl; [reflexivity|].
  now destruct (isspace c).
Qed.

Lemma lstrip_snoc (l : text) (c : char) :
  lstrip (l ++ [c]) =
  match lstrip l with
  | [] => if isspace c then [] else [c]
  | l' => l' ++ [c]
  end.
Proof.
  induction l as [|x l IH]; simpl.
  - now destruct (isspace c).
  - destruct (isspace x); [exact IH | reflexivity].
Qed.

Lemma rev_lstrip_rev (s : text) : rev (lstrip (rev s)) = trim_right s.
Proof.
  induction s as [|c r IH]; [reflexivity|].
  simpl rev. rewrite lstrip_snoc. simpl trim_right.
  destruct (lstrip (rev r)) as [|y l'] eqn:E.
  - simpl in IH. rewrite <- IH. now destruct (isspace c).
  - rewrite <- IH. set (t := y :: l') in *.
    rewrite rev_app_distr. change (rev [c] ++ rev t) with (c :: rev t).
    destruct (rev t) eqn:E2; [|reflexivity].
    apply (f_equal (@List.length _)) in E2. rewrite length_rev in E2.
    discriminate.
Qed.

Lemma strip_trim (s : text) : strip s = trim s.
Proof.
  unfold strip, trim. rewrite rev_lstrip_rev. now rewrite lstrip_trim_left.
Qed.

End NormalizerFacts.

(** C8.  For every input value, [preprocess_text] returns the empty string
    when the value is not a string, and otherwise the input lowercased,
    then stripped of every character that is neither a lowercase Latin
    letter nor white space, then with each run of white space collapsed to
    one space, then trimmed: the pipeline of the specification, in that
    order.  The function is pure: it takes no state and emits no event. *)
Theorem preprocess_text_refines_spec (v : json) :
  preprocess_text v =
  match v with
  | JStr s => NormalizerSpec.normalize s
  | _ => []
  end.
Proof.
  destruct v; try reflexivity.
  unfold preprocess_text, NormalizerSpec.normalize.
  rewrite NormalizerFacts.re_sub_class_delete.
  rewrite (proj1 (NormalizerFacts.re_sub_run_collapse _)).
  apply NormalizerFacts.strip_trim.
Qed.

(* ================================================================== *)
(** ** The effect monad *)

Module EffFacts.

Lemma bind_returned {A B} (m : Eff.M A) (f : A -> Eff.M B) t b :
  Eff.bind m f = (t, Returned b) ->
  exists t1 a t2, m = (t1, Returned a) /\ f a = (t2, Returned b)
                  /\ t = t1 ++ t2.
Proof.
  unfold Eff.bind. destruct m as [t1 [a|e]]; [|discriminate].
  destruct (f a) as [t2 r] eqn:E. intros H. inversion H; subst.
  now exists t1, a, t2.
Qed.

Lemma bind_ret_l {A B} (a : A) (f : A -> Eff.M B) :
  Eff.bind (Eff.ret a) f = f a.
Proof. unfold Eff.bind, Eff.ret. simpl. now destruct (f a). Qed.

Lemma bind_emit {B} (e : event) (f : unit -> Eff.M B) :
  Eff.bind (Eff.emit e) f = (e :: fst (f tt), snd (f tt)).
Proof. unfold Eff.bind, Eff.emit. now destruct (f tt). Qed.

Lemma bind_pure {A B} (a : A) (f : A -> Eff.M B) t :
  Eff.bind (t, Returned a) f = (t ++ fst (f a), snd (f a)).
Proof. unfold Eff.bind. now destruct (f a). Qed.

(** The events of a sequence are those of its first part followed, when
    that part returns, by those of its second part. *)
Lemma trace_bind {A B} (m : Eff.M A) (f : A -> Eff.M B) :
  Eff.trace (Eff.bind m f) =
  match Eff.value m with
  | Returned a => Eff.trace m ++ Eff.trace (f a)
  | Raised _ => Eff.trace m
  end.
Proof.
  unfold Eff.bind, Eff.trace, Eff.value. destruct m as [t [a|e]]; simpl.
  - now destruct (f a).
  - reflexivity.
Qed.

End EffFacts.

Module TraceFacts.

Lemma console_only_bind {A B} (m : Eff.M A) (f : A -> Eff.M B) :
  console_only (Eff.trace m) ->
  (forall a, console_only (Eff.trace (f a))) ->
  console_only (Eff.trace (Eff.bind m f)).
Proof.
  intros Hm Hf. rewrite EffFacts.trace_bind.
  destruct (Eff.value m); [|exact Hm].
  apply Forall_app. split; [exact Hm | apply Hf].
Qed.

Lemma console_only_ret {A} (a : A) : console_only (Eff.trace (Eff.ret a)).
Proof. constructor. Qed.

Lemma console_only_raise {A} e : console_only (Eff.trace (@Eff.raise A e)).
Proof. constructor. Qed.

Lemma console_only_print m : console_only (Eff.trace (Eff.print m)).
Proof. repeat constructor. Qed.

End TraceFacts.

Create HintDb trace.
#[local] Hint Resolve TraceFacts.console_only_bind TraceFacts.console_only_ret
  TraceFacts.console_only_raise TraceFacts.console_only_print : trace.

(* ================================================================== *)
(** ** [argsort] and the slices *)

Module NumpyFacts.

Lemma Qltb_lt a b : Qltb a b = true <-> a < b.
Proof.
  unfold Qltb. rewrite Qlt_alt. destruct (a ?= b); split; congruence.
Qed.

Lemma Qltb_ge a b : Qltb a b = false <-> b <= a.
Proof.
  split; intros H.
  - apply Qnot_lt_le. intros L. apply Qltb_lt in L. congruence.
  - destruct (Qltb a b) eqn:E; [|reflexivity].
    apply Qltb_lt in E. exfalso. now apply (Qlt_not_le _ _ E).
Qed.

Section WithLibrary.
Context {lib : Library}.

(** What the comparison of the sort tells of the two values, whatever the
    ranks are. *)
Lemma precedes_le a i j : precedes a i j = true -> at_ a i <= at_ a j.
Proof.
  unfold precedes. intros H. apply orb_true_iff in H.
  destruct H as [H | H].
  - apply Qltb_lt in H. now apply Qlt_le_weak.
  - apply andb_true_iff in H. destruct H as [H _].
    apply Qeq_bool_iff in H. rewrite H. apply Qle_refl.
Qed.

Lemma precedes_ge a i j : precedes a i j = false -> at_ a j <= at_ a i.
Proof.
  unfold precedes. intros H. apply orb_false_iff in H.
  destruct H as [H _]. now apply Qltb_ge.
Qed.

Lemma insert_index_perm a i l : Permutation (insert_index a i l) (i :: l).
Proof.
  induction l as [|j r IH]; simpl; [reflexivity|].
  destruct (precedes a i j); [reflexivity|].
  rewrite IH. apply perm_swap.
Qed.

Lemma insert_index_sorted a i l :
  StronglySorted (ascending a) l ->
  StronglySorted (ascending a) (insert_index a i l).
Proof.
  intros Hs. induction Hs as [|j r Hr IH Hj]; simpl.
  - repeat constructor.
  - destruct (precedes a i j) eqn:E.
    + apply precedes_le in E. constructor; [now constructor|].
      constructor; [exact E|].
      rewrite Forall_forall in Hj |- *. intros x Hx.
      unfold ascending in *. apply Qle_trans with (at_ a j);
        [exact E | now apply Hj].
    + apply precedes_ge in E. constructor; [exact IH|].
      rewrite Forall_forall in Hj |- *. intros x Hx.
      apply (Permutation_in _ (insert_index_perm a i r)) in Hx.
      destruct Hx as [<- | Hx]; [exact E | now apply Hj].
Qed.

Lemma argsort_from a acc :
  StronglySorted (ascending a) acc ->
  forall m n,
    let r := fold_left (fun acc i => insert_index a i acc) (seq n m) acc in
    Permutation r (acc ++ seq n m) /\ StronglySorted (ascending a) r.
Proof.
  intros Hs m. revert acc Hs.
  induction m as [|m IH]; intros acc Hs n; simpl.
  - split; [now rewrite app_nil_r | exact Hs].
  - destruct (IH (insert_index a n acc) (@insert_index_sorted a n acc Hs) (S n))
      as [P S'].
    split; [|exact S'].
    rewrite P. rewrite (insert_index_perm a n acc).
    apply Permutation_middle.
Qed.

Lemma argsort_perm a : Permutation (argsort a) (seq 0 (List.length a)).
Proof.
  unfold argsort.
  destruct (@argsort_from a [] (SSorted_nil _) (List.length a) 0%nat)
    as [P _].
  exact P.
Qed.

Lemma argsort_sorted a : StronglySorted (ascending a) (argsort a).
Proof.
  unfold argsort.
  destruct (@argsort_from a [] (SSorted_nil _) (List.length a) 0%nat)
    as [_ S'].
  exact S'.
Qed.

Lemma argsort_in a i : In i (argsort a) <-> (i < List.length a)%nat.
Proof.
  split; intros H.
  - apply (Permutation_in _ (argsort_perm a)) in H.
    apply in_seq in H. lia.
  - apply (Permutation_in _ (Permutation_sym (argsort_perm a))).
    apply in_seq. lia.
Qed.

Lemma argsort_length a : List.length (argsort a) = List.length a.
Proof. rewrite (Permutation_length (argsort_perm a)). apply length_seq. Qed.

End WithLibrary.

End NumpyFacts.

Module ListFacts.

Lemma sorted_snoc {A} (R : A -> A -> Prop) l x :
  StronglySorted R l -> Forall (fun y => R y x) l ->
  StronglySorted R (l ++ [x]).
Proof.
  induction 1 as [|y l Hl IH Hy]; intros Hx; simpl.
  - repeat constructor.
  - inversion Hx; subst. constructor; [now apply IH|].
    apply Forall_app. split; [exact Hy | now repeat constructor].
Qed.

Lemma sorted_rev {A} (R : A -> A -> Prop) l :
  StronglySorted R l -> StronglySorted (fun x y => R y x) (rev l).
Proof.
  induction 1 as [|y l Hl IH Hy]; simpl; [constructor|].
  apply sorted_snoc; [exact IH|].
  rewrite Forall_forall in Hy |- *. intros z Hz. apply Hy.
  now apply in_rev.
Qed.

Lemma firstn_in {A} n (l : list A) x : In x (firstn n l) -> In x l.
Proof.
  intros H. rewrite <- (firstn_skipn n l). apply in_or_app. now left.
Qed.

Lemma sorted_firstn {A} (R : A -> A -> Prop) n l :
  StronglySorted R l -> StronglySorted R (firstn n l).
Proof.
  intros H. revert n. induction H as [|y l Hl IH Hy]; intros [|n]; simpl;
    try constructor; [apply IH|].
  rewrite Forall_forall in Hy |- *. intros z Hz. apply Hy.
  now apply firstn_in in Hz.
Qed.

Lemma sorted_filter {A} (R : A -> A -> Prop) f l :
  StronglySorted R l -> StronglySorted R (filter f l).
Proof.
  induction 1 as [|y l Hl IH Hy]; simpl; [constructor|].
  destruct (f y); [|exact IH]. constructor; [exact IH|].
  rewrite Forall_forall in Hy |- *. intros z Hz. apply Hy.
  now apply filter_In in Hz.
Qed.

Lemma sorted_map {A B} (R : A -> A -> Prop) (R' : B -> B -> Prop)
  (f : A -> B) l :
  (forall x y, In x l -> In y l -> R x y -> R' (f x) (f y)) ->
  StronglySorted R l -> StronglySorted R' (map f l).
Proof.
  intros Hf H. induction H as [|y l Hl IH Hy]; simpl; [constructor|].
  constructor.
  - apply IH. intros x z Hx Hz. apply Hf; now right.
  - rewrite Forall_forall in Hy |- *. intros b Hb.
    apply in_map_iff in Hb. destruct Hb as [x [<- Hx]].
    apply Hf; [now left | now right | now apply Hy].
Qed.

Lemma slice_to_firstn {A} k (l : list A) :
  exists n, slice_to k l = firstn n l.
Proof. unfold slice_to. destruct (0 <=? k)%Z; eauto. Qed.

Lemma slice_to_incl {A} k (l : list A) x : In x (slice_to k l) -> In x l.
Proof.
  destruct (slice_to_firstn k l) as [n ->]. apply firstn_in.
Qed.

Lemma slice_to_sorted {A} (R : A -> A -> Prop) k l :
  StronglySorted R l -> StronglySorted R (slice_to k l).
Proof.
  destruct (slice_to_firstn k l) as [n ->]. apply sorted_firstn.
Qed.

Lemma slice_to_all {A} k (l : list A) :
  (Z.of_nat (List.length l) <= k)%Z -> slice_to k l = l.
Proof.
  intros H. unfold slice_to.
  replace (0 <=? k)%Z with true by (symmetry; apply Z.leb_le; lia).
  apply firstn_all2. lia.
Qed.

Lemma text_eqb_eq a b : text_eqb a b = true <-> a = b.
Proof.
  unfold text_eqb. destruct (list_eq_dec N.eq_dec a b); split; congruence.
Qed.

Lemma text_eqb_refl a : text_eqb a a = true.
Proof. now apply text_eqb_eq. Qed.

Lemma text_eqb_neq a b : text_eqb a b = false <-> a <> b.
Proof.
  unfold text_eqb. destruct (list_eq_dec N.eq_dec a b); split; congruence.
Qed.

End ListFacts.

(** The ranking every query shape shares: [argsort], reversed, cut. *)
Module RankFacts.
Import NumpyFacts ListFacts.

Section WithLibrary.
Context {lib : Library}.

Lemma top_in sims k i : In i (top sims k) -> (i < List.length sims)%nat.
Proof.
  intros H. apply slice_to_incl in H. apply in_rev in H.
  now apply argsort_in.
Qed.

Lemma top_sorted sims k :
  StronglySorted (fun i j => ascending sims j i) (top sims k).
Proof.
  apply slice_to_sorted. apply sorted_rev. apply argsort_sorted.
Qed.

(** With [top_k] at least the number of rows, every row is selected. *)
Lemma top_all sims k i :
  (Z.of_nat (List.length sims) <= k)%Z -> (i < List.length sims)%nat ->
  In i (top sims k).
Proof.
  intros Hk Hi. unfold top. rewrite slice_to_all.
  - apply -> in_rev. now apply argsort_in.
  - now rewrite length_rev, argsort_length.
Qed.

End WithLibrary.
End RankFacts.

(** The ranks of the library cover every order a sort by value can
    leave. *)
Module SortFacts.
Import NumpyFacts ListFacts.

Lemma sorted_unique {A} (R : A -> A -> Prop) l1 l2 :
  (forall x, ~ R x x) -> (forall x y z, R x y -> R y z -> R x z) ->
  StronglySorted R l1 -> StronglySorted R l2 -> Permutation l1 l2 ->
  l1 = l2.
Proof.
  intros Hirr Htr H1. revert l2.
  induction H1 as [|x l1 Hs1 IH Hx]; intros l2 H2 P.
  - apply Permutation_nil in P. now subst.
  - destruct H2 as [|y l2 Hs2 Hy].
    + apply Permutation_sym, Permutation_nil in P. discriminate.
    + assert (Exy : x = y).
      { assert (Hxin : In x (y :: l2))
          by (apply (Permutation_in _ P); now left).
        assert (Hyin : In y (x :: l1))
          by (apply (Permutation_in _ (Permutation_sym P)); now left).
        destruct Hxin as [E | Hxin]; [now symmetry|].
        destruct Hyin as [E | Hyin]; [exact E|].
        rewrite Forall_forall in Hx, Hy.
        exfalso. apply (Hirr x). apply (Htr x y x); [now apply Hx|].
        now apply Hy. }
      subst y. f_equal. apply IH; [exact Hs2|].
      now apply Permutation_cons_inv in P.
Qed.

Lemma position_sorted p :
  NoDup p -> StronglySorted (fun i j => (position i p < position j p)%nat) p.
Proof.
  induction 1 as [|x l Hx Hl IH]; constructor.
  - assert (Hin : forall y, In y l -> (y =? x)%nat = false).
    { intros y Hy. apply Nat.eqb_neq. intros ->. contradiction. }
    pose proof (@sorted_map nat nat
                  (fun i j => (position i l < position j l)%nat)
                  (fun i j => (position i (x :: l) < position j (x :: l))%nat)
                  (fun i => i) l) as M.
    rewrite map_id in M. apply M; [|exact IH].
    intros a b Ha Hb L. cbn [position].
    rewrite (Hin a Ha), (Hin b Hb). lia.
  - rewrite Forall_forall. intros y Hy. cbn [position].
    rewrite Nat.eqb_refl.
    replace (y =? x)%nat with false; [lia|].
    symmetry. apply Nat.eqb_neq. intros ->. contradiction.
Qed.

Lemma sorted_both {A} (R1 R2 : A -> A -> Prop) l :
  StronglySorted R1 l -> StronglySorted R2 l ->
  StronglySorted (fun x y => R1 x y /\ R2 x y) l.
Proof.
  induction 1 as [|x l H1 IH Hx]; intros H2; [constructor|].
  inversion H2 as [|? ? H2' Hx2]; subst. constructor; [now apply IH|].
  rewrite Forall_forall in Hx, Hx2 |- *. intros y Hy.
  split; [now apply Hx | now apply Hx2].
Qed.

Section WithLibrary.
Context {lib : Library}.

Lemma precedes_spec a i j :
  precedes a i j = true <->
  at_ a i < at_ a j
  \/ (at_ a i == at_ a j
      /\ ((argsort_rank a i < argsort_rank a j)%nat
          \/ (argsort_rank a i = argsort_rank a j /\ (i < j)%nat))).
Proof.
  unfold precedes.
  rewrite orb_true_iff, andb_true_iff, orb_true_iff, andb_true_iff.
  rewrite Qltb_lt, Qeq_bool_iff, !Nat.ltb_lt, Nat.eqb_eq. reflexivity.
Qed.

Lemma precedes_irrefl a i : precedes a i i = false.
Proof.
  destruct (precedes a i i) eqn:E; [|reflexivity].
  apply precedes_spec in E. destruct E as [L | [_ [L | [_ L]]]].
  - now apply Qlt_irrefl in L.
  - lia.
  - lia.
Qed.

Lemma precedes_trans a i j k :
  precedes a i j = true -> precedes a j k = true -> precedes a i k = true.
Proof.
  rewrite !precedes_spec.
  intros [L1 | [E1 T1]] [L2 | [E2 T2]].
  - left. now apply Qlt_trans with (at_ a j).
  - left. now rewrite <- E2.
  - left. now rewrite E1.
  - right. split; [now rewrite E1 | lia].
Qed.

Lemma precedes_total a i j :
  i <> j -> precedes a i j = false -> precedes a j i = true.
Proof.
  intros Hne H. apply precedes_spec.
  destruct (precedes a i j) eqn:E; [discriminate|]. clear H.
  assert (Hn : ~ (at_ a i < at_ a j
                  \/ (at_ a i == at_ a j
                      /\ ((argsort_rank a i < argsort_rank a j)%nat
                          \/ (argsort_rank a i = argsort_rank a j
                              /\ (i < j)%nat))))).
  { intros Hs. apply precedes_spec in Hs. congruence. }
  destruct (Qlt_le_dec (at_ a i) (at_ a j)) as [L | L];
    [elim Hn; now left|].
  destruct (Qle_lt_or_eq _ _ L) as [L' | Eq]; [now left|].
  right. split; [exact Eq|].
  assert (Ht : ~ ((argsort_rank a i < argsort_rank a j)%nat
                  \/ (argsort_rank a i = argsort_rank a j /\ (i < j)%nat))).
  { intros Ht. apply Hn. right. split; [now symmetry | exact Ht]. }
  lia.
Qed.

Lemma insert_index_ordered a i l :
  ~ In i l ->
  StronglySorted (fun x y => precedes a x y = true) l ->
  StronglySorted (fun x y => precedes a x y = true) (insert_index a i l).
Proof.
  intros Hi Hs. induction Hs as [|j r Hr IH Hj]; simpl.
  - repeat constructor.
  - destruct (precedes a i j) eqn:E.
    + constructor; [now constructor|].
      constructor; [exact E|].
      rewrite Forall_forall in Hj |- *. intros x Hx.
      apply (precedes_trans a i j x E). now apply Hj.
    + constructor; [apply IH; intros Hin; apply Hi; now right|].
      rewrite Forall_forall in Hj |- *. intros x Hx.
      apply (Permutation_in _ (insert_index_perm a i r)) in Hx.
      destruct Hx as [<- | Hx]; [|now apply Hj].
      apply precedes_total; [|exact E].
      intros ->. apply Hi. now left.
Qed.

Lemma argsort_ordered_from a m :
  forall n acc,
    Forall (fun j => (j < n)%nat) acc ->
    StronglySorted (fun x y => precedes a x y = true) acc ->
    StronglySorted (fun x y => precedes a x y = true)
      (fold_left (fun acc i => insert_index a i acc) (seq n m) acc).
Proof.
  induction m as [|m IH]; intros n acc Hlt Hs; simpl; [exact Hs|].
  apply IH.
  - rewrite Forall_forall in Hlt |- *. intros x Hx.
    apply (Permutation_in _ (insert_index_perm a n acc)) in Hx.
    destruct Hx as [<- | Hx]; [lia|]. specialize (Hlt x Hx). lia.
  - apply insert_index_ordered; [|exact Hs].
    intros Hin. rewrite Forall_forall in Hlt. specialize (Hlt n Hin). lia.
Qed.

(** [argsort] is the one arrangement of the indices that follows the
    comparison of the sort. *)
Lemma argsort_ordered a :
  StronglySorted (fun x y => precedes a x y = true) (argsort a).
Proof.
  unfold argsort. apply argsort_ordered_from; constructor.
Qed.

End WithLibrary.

(** Every arrangement of the indices that is ascending by value is the
    [argsort] of some sort: the one that ranks the indices as the
    arrangement lists them. *)
Lemma argsort_any_order (lib : Library) (a : list Q) (p : list nat) :
  Permutation p (seq 0 (List.length a)) ->
  StronglySorted (ascending a) p ->
  @argsort (with_order lib p) a = p.
Proof.
  intros P Hs.
  assert (Hnd : NoDup p)
    by (apply (Permutation_NoDup (Permutation_sym P)), seq_NoDup).
  apply (@sorted_unique nat
           (fun x y => @precedes (with_order lib p) a x y = true)).
  - intros x. now rewrite precedes_irrefl.
  - intros x y z. apply precedes_trans.
  - apply argsort_ordered.
  - pose proof (sorted_both Hs (position_sorted Hnd)) as B.
    pose proof (@sorted_map nat nat
                  (fun x y => ascending a x y
                              /\ (position x p < position y p)%nat)
                  (fun x y => @precedes (with_order lib p) a x y = true)
                  (fun i => i) p) as M.
    rewrite map_id in M. apply M; [|exact B].
    intros x y _ _ [L R]. apply precedes_spec. cbn [argsort_rank with_order].
    unfold ascending in L.
    destruct (Qle_lt_or_eq _ _ L) as [L' | Eq]; [now left|].
    right. split; [exact Eq | now left].
  - rewrite (@argsort_perm (with_order lib p) a). now symmetry.
Qed.

End SortFacts.

(* ================================================================== *)
(** ** What the query methods compute *)

Module SearchFacts.
Import NumpyFacts ListFacts RankFacts.

Lemma get_product_cases self idx :
  ((idx < List.length (products self))%nat
   /\ get_product self idx = ([], Returned (nth idx (products self) [])))
  \/ ((List.length (products self) <= idx)%nat
      /\ get_product self idx = ([], Raised IndexError)).
Proof.
  unfold get_product.
  destruct (nth_error (products self) idx) as [p|] eqn:E.
  - left. split.
    + apply nth_error_Some. congruence.
    + apply (nth_error_nth _ _ ([] : product)) in E. now rewrite E.
  - right. split; [now apply nth_error_None | reflexivity].
Qed.

(** The loop of [search] emits nothing; when it returns, its result is
    the selected rows with a positive score, in the order of selection. *)
Lemma search_loop_cases self sims rows :
  search_loop self sims rows =
    ([], Returned (map (result_at self sims) (filter (positive sims) rows)))
  \/ search_loop self sims rows = ([], Raised IndexError).
Proof.
  induction rows as [|idx rest IH]; simpl; [now left|].
  unfold positive at 1.
  destruct (Qltb 0 (at_ sims idx)); [|exact IH].
  destruct (get_product_cases self idx) as [[_ ->] | [_ ->]]; [|now right].
  destruct IH as [-> | ->]; [left | right]; reflexivity.
Qed.

Lemma search_loop_total self sims rows :
  Forall (fun idx => (idx < List.length (products self))%nat) rows ->
  search_loop self sims rows =
    ([], Returned (map (result_at self sims) (filter (positive sims) rows))).
Proof.
  induction 1 as [|idx rest Hidx _ IH]; simpl; [reflexivity|].
  unfold positive at 1.
  destruct (Qltb 0 (at_ sims idx)); [|exact IH].
  destruct (get_product_cases self idx) as [[_ ->] | [Hge _]]; [|lia].
  now rewrite IH.
Qed.

Lemma similar_loop_cases self sims rows :
  similar_loop self sims rows =
    ([], Returned (map (result_at self sims) rows))
  \/ similar_loop self sims rows = ([], Raised IndexError).
Proof.
  induction rows as [|idx rest IH]; simpl; [now left|].
  destruct (get_product_cases self idx) as [[_ ->] | [_ ->]]; [|now right].
  destruct IH as [-> | ->]; [left | right]; reflexivity.
Qed.

Lemma similar_loop_total self sims rows :
  Forall (fun idx => (idx < List.length (products self))%nat) rows ->
  similar_loop self sims rows =
    ([], Returned (map (result_at self sims) rows)).
Proof.
  induction 1 as [|idx rest Hidx _ IH]; simpl; [reflexivity|].
  destruct (get_product_cases self idx) as [[_ ->] | [Hge _]]; [|lia].
  now rewrite IH.
Qed.

Lemma category_loop_cases self sims pairs :
  category_loop self sims pairs =
    ([], Returned (map (fun p => make_result (snd p)
                                   (nth (snd p) (products self) [])
                                   (at_ sims (fst p))) pairs))
  \/ category_loop self sims pairs = ([], Raised IndexError).
Proof.
  induction pairs as [|[l g] rest IH]; simpl; [now left|].
  destruct (get_product_cases self g) as [[_ ->] | [_ ->]]; [|now right].
  destruct IH as [-> | ->]; [left | right]; reflexivity.
Qed.

Section WithLibrary.
Context {lib : Library}.

Lemma cosine_similarity_one q E :
  E <> [] ->
  cosine_similarity [q] E = Eff.ret [map (cosine_row q) E].
Proof. destruct E; [congruence | reflexivity]. Qed.

(** [search] on a built index is the loop over the ranked rows. *)
Lemma search_built self v E query top_k :
  embeddings self = Some E -> vectorizer self = Some v -> E <> [] ->
  search self query top_k =
  search_loop self (scores v E query) (top (scores v E query) top_k).
Proof.
  intros HE Hv Hne. unfold search. rewrite HE, Hv.
  unfold transform. rewrite EffFacts.bind_ret_l.
  rewrite (cosine_similarity_one _ Hne).
  rewrite EffFacts.bind_ret_l. simpl hd.
  fold (query_vector v query). fold (scores v E query).
  fold (top (scores v E query) top_k).
  reflexivity.
Qed.

Lemma search_unbuilt self query top_k :
  embeddings self = None ->
  search self query top_k = ([Print MsgNoEmbeddings], Returned []).
Proof. intros H. unfold search. now rewrite H. Qed.

(** Whatever the state, a [search] that returns has one of two shapes. *)
Lemma search_returned self query top_k t rs :
  search self query top_k = (t, Returned rs) ->
  (embeddings self = None /\ t = [Print MsgNoEmbeddings] /\ rs = [])
  \/ (exists v E,
        embeddings self = Some E /\ vectorizer self = Some v /\ E <> []
        /\ t = []
        /\ rs = map (result_at self (scores v E query))
                  (filter (positive (scores v E query))
                     (top (scores v E query) top_k))).
Proof.
  intros H. destruct (embeddings self) as [E|] eqn:HE.
  - right. destruct (vectorizer self) as [v|] eqn:Hv.
    + destruct E as [|e E'].
      * unfold search in H. rewrite HE, Hv in H. discriminate.
      * exists v, (e :: E').
        rewrite (search_built self query top_k HE Hv) in H by discriminate.
        destruct (search_loop_cases self (scores v (e :: E') query)
                    (top (scores v (e :: E') query) top_k)) as [R | R];
          rewrite R in H; inversion H; subst.
        repeat split; try reflexivity. discriminate.
    + unfold search in H. rewrite HE, Hv in H. discriminate.
  - left. rewrite (search_unbuilt self query top_k HE) in H.
    inversion H. auto.
Qed.

(** On a well-formed state [search] always returns. *)
Lemma search_total self query top_k :
  well_formed self -> exists t rs, search self query top_k = (t, Returned rs).
Proof.
  unfold well_formed. intros W.
  destruct (embeddings self) as [E|] eqn:HE.
  - destruct W as [Hv [Hne Hlen]].
    destruct (vectorizer self) as [v|] eqn:Hv'; [|congruence].
    rewrite (search_built self query top_k HE Hv' Hne).
    rewrite search_loop_total; [eauto|].
    rewrite Forall_forall. intros i Hi. apply top_in in Hi.
    unfold scores in Hi. rewrite length_map in Hi. lia.
  - rewrite (search_unbuilt self query top_k HE). eauto.
Qed.

End WithLibrary.
End SearchFacts.

Module CategoryFacts.
Import NumpyFacts ListFacts RankFacts SearchFacts.

Lemma matching_rows_in category from col g :
  In g (matching_rows category from col) ->
  (from <= g)%nat /\ nth_error col (g - from) = Some (Some category).
Proof.
  revert from. induction col as [|c r IH]; intros from H; simpl in H;
    [contradiction|].
  assert (Hrec : In g (matching_rows category (S from) r) ->
                 (from <= g)%nat
                 /\ nth_error (c :: r) (g - from) = Some (Some category)).
  { intros Hg. destruct (IH _ Hg) as [Hle Hn]. split; [lia|].
    replace (g - from)%nat with (S (g - S from)) by lia. exact Hn. }
  destruct c as [label|]; [|now apply Hrec].
  destruct (text_eqb label category) eqn:E; [|now apply Hrec].
  destruct H as [<- | H]; [|now apply Hrec].
  apply text_eqb_eq in E. subst. split; [lia|].
  now rewrite Nat.sub_diag.
Qed.

Lemma matching_rows_sorted category from col :
  StronglySorted lt (matching_rows category from col).
Proof.
  revert from. induction col as [|c r IH]; intros from; simpl;
    [constructor|].
  destruct c as [label|]; [|apply IH].
  destruct (text_eqb label category); [|apply IH].
  constructor; [apply IH|].
  rewrite Forall_forall. intros g Hg.
  apply matching_rows_in in Hg. lia.
Qed.

Lemma sorted_nth_lt l i j :
  StronglySorted lt l -> (i < j)%nat -> (j < List.length l)%nat ->
  (nth i l O < nth j l O)%nat.
Proof.
  intros H. revert i j. induction H as [|x l Hl IH Hx]; intros i j Hij Hj;
    simpl in Hj; [lia|].
  destruct j as [|j]; [lia|]. destruct i as [|i]; simpl.
  - rewrite Forall_forall in Hx. apply Hx. apply nth_In. lia.
  - apply IH; lia.
Qed.

Lemma take_rows_cases E rows :
  (Forall (fun i => (i < List.length E)%nat) rows
   /\ take_rows E rows = Eff.ret (map (fun i => nth i E []) rows))
  \/ take_rows E rows = ([], Raised IndexError).
Proof.
  unfold take_rows.
  destruct (forallb (fun i => (i <? List.length E)%nat) rows) eqn:F;
    [left | now right].
  split; [|reflexivity].
  rewrite forallb_forall in F. rewrite Forall_forall. intros i Hi.
  now apply Nat.ltb_lt, F.
Qed.

Lemma combine_map_self {A B} (f : A -> B) l :
  combine l (map f l) = map (fun x => (x, f x)) l.
Proof. induction l; simpl; congruence. Qed.

Section WithLibrary.
Context {lib : Library}.

(** A [search_by_category] that returns has read the file first and
    printed at most one line; its result is empty, or the ranked rows of
    the category. *)
Lemma search_by_category_returned fs self query category top_k t rs :
  search_by_category fs self query category top_k = (t, Returned rs) ->
  (exists t', t = ReadFile CLEAN_CSV :: t' /\ console_only t')
  /\ (rs = []
      \/ exists v E df col,
           csv_files fs CLEAN_CSV = Some df /\ categorie df = Some col
           /\ vectorizer self = Some v /\ embeddings self = Some E
           /\ let cat := matching_rows category 0 col in
              let sims := category_scores v E cat query in
              cat <> []
              /\ Forall (fun i => (i < List.length E)%nat) cat
              /\ rs = map (category_result self cat sims) (top sims top_k)).
Proof.
  unfold search_by_category. intros H.
  rewrite EffFacts.bind_emit in H. cbv beta in H.
  match type of H with
  | (_ :: fst ?X, snd ?X) = _ => destruct X as [t' r] eqn:HX
  end.
  simpl in H. inversion H; subst. clear H.
  split.
  - exists t'. split; [reflexivity|].
    destruct (csv_files fs CLEAN_CSV) as [df|];
      [|inversion HX; repeat constructor].
    destruct (categorie df) as [col|]; [|discriminate].
    destruct (matching_rows category 0 col) as [|g cat'];
      [inversion HX; repeat constructor|].
    destruct (vectorizer self) as [v|]; [|discriminate].
    unfold transform in HX. rewrite EffFacts.bind_ret_l in HX.
    destruct (embeddings self) as [E|]; [|discriminate].
    destruct (take_rows_cases E (g :: cat')) as [[_ R] | R];
      rewrite R in HX; [|discriminate].
    rewrite EffFacts.bind_ret_l in HX.
    rewrite cosine_similarity_one in HX by discriminate.
    rewrite EffFacts.bind_ret_l in HX.
    match type of HX with
    | category_loop ?a ?b ?c = _ =>
        destruct (category_loop_cases a b c) as [R' | R']
    end; rewrite R' in HX; inversion HX; constructor.
  - destruct (csv_files fs CLEAN_CSV) as [df|] eqn:Hcsv;
      [|inversion HX; now left].
    destruct (categorie df) as [col|] eqn:Hcol; [|discriminate].
    destruct (matching_rows category 0 col) as [|g cat'] eqn:Hcat;
      [inversion HX; now left|].
    destruct (vectorizer self) as [v|] eqn:Hv; [|discriminate].
    unfold transform in HX. rewrite EffFacts.bind_ret_l in HX.
    destruct (embeddings self) as [E|] eqn:HE; [|discriminate].
    destruct (take_rows_cases E (g :: cat')) as [[Hrows R] | R];
      rewrite R in HX; [|discriminate].
    rewrite EffFacts.bind_ret_l in HX.
    rewrite cosine_similarity_one in HX by discriminate.
    rewrite EffFacts.bind_ret_l in HX. simpl hd in HX.
    rewrite combine_map_self in HX.
    fold (query_vector v query) in HX.
    fold (category_scores v E (g :: cat') query) in HX.
    fold (top (category_scores v E (g :: cat') query) top_k) in HX.
    match type of HX with
    | category_loop ?a ?b ?c = _ =>
        destruct (category_loop_cases a b c) as [R' | R']
    end; rewrite R' in HX; [|discriminate].
    inversion HX; subst.
    right. exists v, E, df, col. cbv zeta. rewrite Hcat.
    repeat split; try assumption; [discriminate | now rewrite map_map].
Qed.

End WithLibrary.
End CategoryFacts.

(* ================================================================== *)
(** ** The order of a result list *)

Section Ranking.
Context {lib : Library}.
Import NumpyFacts ListFacts RankFacts SearchFacts CategoryFacts.

Lemma search_ranked self query top_k t rs :
  search self query top_k = (t, Returned rs) ->
  StronglySorted ranked_by_score rs.
Proof.
  intros H. apply search_returned in H.
  destruct H as [[_ [_ ->]] | [v [E [_ [_ [_ [_ ->]]]]]]]; [constructor|].
  apply sorted_map with (R := fun i j => ascending (scores v E query) j i).
  - intros x y _ _ L. exact L.
  - apply sorted_filter, top_sorted.
Qed.

Lemma search_by_category_ranked fs self query category top_k t rs :
  search_by_category fs self query category top_k = (t, Returned rs) ->
  StronglySorted ranked_by_score rs.
Proof.
  intros H. apply search_by_category_returned in H.
  destruct H as [_ [-> | [v [E [df [col [_ [_ [_ [_ H]]]]]]]]]]; [constructor|].
  cbv zeta in H. destruct H as [_ [_ ->]].
  apply sorted_map
    with (R := fun i j =>
                 ascending
                   (category_scores v E (matching_rows category 0 col) query)
                   j i);
    [|apply top_sorted].
  intros x y _ _ L. exact L.
Qed.

End Ranking.

(** C3, as amended.  The result list of [search] and of
    [search_by_category] is sorted by descending score: no entry is
    followed by one of strictly higher score, whatever order [np.argsort]
    leaves among equal values.  The code has no tie-break of its own: two
    entries of equal score come in the order of the sort, reversed. *)
Theorem results_ranked_by_descending_score {lib : Library} fs self query
  category top_k t rs :
  search self query top_k = (t, Returned rs)
  \/ search_by_category fs self query category top_k = (t, Returned rs) ->
  StronglySorted ranked_by_score rs.
Proof.
  intros [H | H].
  - exact (search_ranked _ _ _ H).
  - exact (search_by_category_ranked _ _ _ _ _ H).
Qed.

Lemma results_ranked_by_descending_score_witness :
  @search Examples.sample_library Examples.built (txt "lait") 5
    = ([], Returned Examples.lait_results)
  /\ StronglySorted ranked_by_score Examples.lait_results.
Proof.
  assert (H : @search Examples.sample_library Examples.built (txt "lait") 5
              = ([], Returned Examples.lait_results))
    by (vm_compute; reflexivity).
  split; [exact H|].
  apply (@results_ranked_by_descending_score Examples.sample_library
           Examples.disk Examples.built (txt "lait") Examples.ALIMENTAIRE 5
           [] Examples.lait_results).
  left. exact H.
Defined.

(** C3, as stated, fails: it is not the case that every result list of
    [search] has the smaller row index first among equal scores.  Rows 0
    and 1 of the sample catalogue tie on "lait"; with a sort that leaves
    equal values in index order they come out as 1, 0. *)
Lemma ranking_ties_counterexample :
  ~ (forall (lib : Library) self query top_k t rs,
        @search lib self query top_k = (t, Returned rs) ->
        StronglySorted ranked_as_specified rs).
Proof.
  intros H.
  assert (S : StronglySorted ranked_as_specified Examples.lait_results).
  { apply (H Examples.sample_library Examples.built (txt "lait") 5%Z []).
    vm_compute. reflexivity. }
  unfold Examples.lait_results in S.
  inversion S as [|? ? _ F]; subst.
  inversion F as [|? ? [L | [_ L]] _]; subst.
  - unfold Qlt in L. simpl in L. lia.
  - simpl in L. lia.
Qed.

(** The order of two entries of equal score is the sort's, not the
    code's: on the same searcher and the same query, the two tied rows come
    out as 1, 0 with one sort and as 0, 1 with the other. *)
Lemma tie_order_follows_the_sort :
  ranking (@search Examples.sample_library Examples.built (txt "lait") 5)
  = Some [(1%Z, 1); (0%Z, 1)]
  /\ ranking (@search Examples.reversing_library Examples.built (txt "lait") 5)
     = Some [(0%Z, 1); (1%Z, 1)].
Proof. split; vm_compute; reflexivity. Qed.

(* ================================================================== *)
(** ** The category-scoped search *)

(** C6.  Every entry of a result list returned by [search_by_category]
    carries the index of a catalogue row whose category, in the cleaned
    CSV, is the requested label, and its similarity is the cosine of the
    query vector with that same row of the matrix: the local ranks are
    mapped back to the original indices. *)
Theorem search_by_category_within_category {lib : Library} fs self query
  category top_k t rs r :
  search_by_category fs self query category top_k = (t, Returned rs) ->
  In r rs ->
  exists row v E,
    index r = Z.of_nat row
    /\ in_category fs category row
    /\ vectorizer self = Some v /\ embeddings self = Some E
    /\ (row < List.length E)%nat
    /\ similarite r = cosine_row (query_vector v query) (nth row E []).
Proof.
  intros H Hr. apply CategoryFacts.search_by_category_returned in H.
  destruct H as [_ [-> | [v [E [df [col [Hcsv [Hcol [Hv [HE H]]]]]]]]]];
    [contradiction|].
  cbv zeta in H. destruct H as [_ [Hrows ->]].
  set (cat := matching_rows category 0 col) in *.
  set (sims := category_scores v E cat query) in *.
  apply in_map_iff in Hr. destruct Hr as [l [<- Hl]].
  apply RankFacts.top_in in Hl.
  assert (Hlen : List.length sims = List.length cat)
    by (unfold sims, category_scores; now rewrite !length_map).
  rewrite Hlen in Hl.
  assert (Hin : In (nth l cat O) cat) by now apply nth_In.
  exists (nth l cat O), v, E. repeat split; try assumption.
  - exists df, col. repeat split; try assumption.
    destruct (CategoryFacts.matching_rows_in _ _ _ _ Hin) as [_ Hn].
    now rewrite Nat.sub_0_r in Hn.
  - rewrite Forall_forall in Hrows. now apply Hrows.
  - simpl. unfold at_, sims, category_scores. rewrite map_map.
    rewrite (nth_indep _ 0
               (cosine_row (query_vector v query) (nth O E [])))
      by now rewrite length_map.
    now rewrite (map_nth
                   (fun i => cosine_row (query_vector v query) (nth i E []))).
Qed.

Lemma search_by_category_within_category_witness :
  exists row v E,
    index (hd (mkResult 0 JNull JNull JNull 0 0)
             Examples.lait_category_results) = Z.of_nat row
    /\ in_category Examples.disk Examples.ALIMENTAIRE row
    /\ vectorizer Examples.built = Some v
    /\ embeddings Examples.built = Some E
    /\ (row < List.length E)%nat
    /\ similarite (hd (mkResult 0 JNull JNull JNull 0 0)
                     Examples.lait_category_results)
       = @cosine_row Examples.sample_library
           (@query_vector Examples.sample_library v (txt "lait"))
           (nth row E []).
Proof.
  apply (@search_by_category_within_category Examples.sample_library
           Examples.disk Examples.built (txt "lait") Examples.ALIMENTAIRE 5
           [ReadFile CLEAN_CSV] Examples.lait_category_results).
  - vm_compute. reflexivity.
  - left. reflexivity.
Defined.

(* ================================================================== *)
(** ** Scores that are not positive *)

Section Positivity.
Context {lib : Library}.
Import NumpyFacts ListFacts RankFacts SearchFacts.

(** [search] keeps its promise: every entry it returns has a similarity
    above zero. *)
Lemma search_results_positive self query top_k t rs :
  search self query top_k = (t, Returned rs) ->
  Forall (fun r => 0 < similarite r) rs.
Proof.
  intros H. apply search_returned in H.
  destruct H as [[_ [_ ->]] | [v [E [_ [_ [_ [_ ->]]]]]]]; [constructor|].
  rewrite Forall_forall. intros r Hr.
  apply in_map_iff in Hr. destruct Hr as [i [<- Hi]].
  apply filter_In in Hi. destruct Hi as [_ Hpos].
  simpl. now apply Qltb_lt.
Qed.

Lemma slice_one_row {A} (l : list A) (i : nat) (d : A) :
  (i < List.length l)%nat -> slice_one (Z.of_nat i) l = [nth i l d].
Proof.
  intros Hi. unfold slice_one.
  replace (Z.of_nat i <? 0)%Z with false by (symmetry; apply Z.ltb_ge; lia).
  replace (Z.of_nat i + 1 <? 0)%Z with false
    by (symmetry; apply Z.ltb_ge; lia).
  replace (Z.to_nat (Z.min (Z.of_nat i + 1) (Z.of_nat (List.length l))
                     - Z.min (Z.of_nat i) (Z.of_nat (List.length l))))
    with 1%nat by lia.
  replace (Z.to_nat (Z.min (Z.of_nat i) (Z.of_nat (List.length l))))
    with i by lia.
  revert i Hi. induction l as [|x l IH]; intros i Hi; simpl in Hi; [lia|].
  destruct i as [|i]; [reflexivity|]. simpl skipn. simpl nth.
  apply IH. lia.
Qed.

Lemma set_nth_length n v a : List.length (set_nth n v a) = List.length a.
Proof.
  revert n. induction a as [|x a IH]; intros [|n]; simpl; auto.
Qed.

Lemma set_nth_at n v a :
  (n < List.length a)%nat -> at_ (set_nth n v a) n = v.
Proof.
  unfold at_. revert n. induction a as [|x a IH]; intros [|n] H; simpl in *;
    try lia; [reflexivity|]. apply IH. lia.
Qed.

(** The defect behind C1 and C2, in general: on a built index with [n]
    products, [similar_products(i, top_k)] with [0 <= i < n <= top_k]
    returns the row [i] itself, with the sentinel [-1] as its similarity. *)
Lemma similar_products_returns_own_row self E (i : nat) top_k :
  embeddings self = Some E ->
  List.length E = List.length (products self) ->
  (i < List.length E)%nat ->
  (Z.of_nat (List.length E) <= top_k)%Z ->
  exists rs r,
    similar_products self (Z.of_nat i) top_k = ([], Returned rs)
    /\ In r rs /\ index r = Z.of_nat i /\ similarite r = - (1).
Proof.
  intros HE Hlen Hi Hk. unfold similar_products. rewrite HE.
  replace (Z.of_nat (List.length (products self)) <=? Z.of_nat i)%Z
    with false by (symmetry; apply Z.leb_gt; lia).
  rewrite (slice_one_row E [] Hi).
  assert (Hne : E <> []) by (intros ->; simpl in Hi; lia).
  rewrite (cosine_similarity_one _ Hne). rewrite EffFacts.bind_ret_l.
  cbn [hd].
  set (sims := map (cosine_row (nth i E [])) E).
  assert (Hs : List.length sims = List.length E)
    by (unfold sims; now rewrite length_map).
  unfold setitem. cbv zeta. rewrite Hs.
  replace ((0 <=? Z.of_nat i) && (Z.of_nat i <? Z.of_nat (List.length E)))%Z
    with true
    by (symmetry; apply andb_true_iff; split;
        [apply Z.leb_le | apply Z.ltb_lt]; lia).
  rewrite Nat2Z.id.
  set (s := set_nth i (- (1)) sims).
  assert (Hs' : List.length s = List.length E)
    by (unfold s; now rewrite set_nth_length).
  rewrite similar_loop_total.
  - exists (map (result_at self s) (slice_to top_k (rev (argsort s)))),
      (result_at self s i).
    repeat split.
    + apply in_map. apply (@top_all lib s top_k i); rewrite Hs'; assumption.
    + simpl. unfold s. apply set_nth_at. now rewrite Hs.
  - rewrite Forall_forall. intros j Hj. apply (@top_in lib s top_k j) in Hj.
    rewrite Hs', Hlen in Hj. exact Hj.
Qed.

(** The guard of [similar_products]: an index at or past the end of the
    catalogue prints the error line and returns the empty list. *)
Lemma similar_products_past_end self product_index top_k :
  (Z.of_nat (List.length (products self)) <= product_index)%Z ->
  similar_products self product_index top_k =
  ([Print (MsgInvalidIndex product_index)], Returned []).
Proof.
  intros H. unfold similar_products.
  replace (Z.of_nat (List.length (products self)) <=? product_index)%Z
    with true by (symmetry; now apply Z.leb_le).
  reflexivity.
Qed.

End Positivity.

(** C1, at the failing input.  On the sample catalogue,
    [search_by_category("savon", "Alimentaire")] returns the two rows of
    the category with similarity 0, and [similar_products(0)] returns an
    entry of similarity 0 and one of similarity -1: neither method has the
    test [similarities[idx] > 0] that [search] applies. *)
Theorem nonpositive_scores_returned :
  ranking (@search_by_category Examples.sample_library Examples.disk
             Examples.built (txt "savon") Examples.ALIMENTAIRE 5)
    = Some [(1%Z, 0); (0%Z, 0)]
  /\ ranking (@similar_products Examples.sample_library Examples.built 0 5)
    = Some [(1%Z, 1); (2%Z, 0); (0%Z, - (1))].
Proof. split; vm_compute; reflexivity. Qed.

(** C2, at the failing input.  With the default [top_k = 5] on the
    catalogue of three products, [similar_products(0)] returns the rows
    1, 2 and 0: the product's own row is in the output. *)
Theorem similar_products_lists_own_row :
  map index
    (Examples.results_of
       (@similar_products Examples.sample_library Examples.built 0 5))
  = [1; 2; 0]%Z.
Proof. vm_compute. reflexivity. Qed.

(** C4, at the failing inputs.  A negative index passes the guard
    [product_index >= len(self.products)]: [-1] selects an empty slice and
    [cosine_similarity] raises [ValueError]; [-2] is answered as if it were
    row 1, with a non-empty list and no error. *)
Theorem similar_products_negative_index :
  @similar_products Examples.sample_library Examples.built (-1) 5
    = ([], Raised ValueError)
  /\ ranking (@similar_products Examples.sample_library Examples.built (-2) 5)
    = Some [(0%Z, 1); (2%Z, 0); (1%Z, - (1))].
Proof. split; vm_compute; reflexivity. Qed.

(* ================================================================== *)
(** ** A search before the index is built *)

(** C5, as amended.  A search issued before [generate_embeddings] has
    completed prints the line "Les embeddings ne sont pas generes" and
    returns the empty list: the returned value is the one of a search that
    matched nothing, and the printed line is the only sign. *)
Theorem search_before_build_prints_and_returns_empty {lib : Library} self
  query top_k :
  embeddings self = None ->
  search self query top_k = ([Print MsgNoEmbeddings], Returned []).
Proof. apply SearchFacts.search_unbuilt. Qed.

Lemma search_before_build_prints_and_returns_empty_witness :
  embeddings Examples.loaded = None
  /\ @search Examples.sample_library Examples.loaded (txt "lait") 5
     = ([Print MsgNoEmbeddings], Returned []).
Proof.
  split; [reflexivity|].
  apply (@search_before_build_prints_and_returns_empty
           Examples.sample_library Examples.loaded (txt "lait") 5).
  reflexivity.
Defined.

(** C5, as stated, fails: the search on the searcher that was loaded but
    not built does not raise, and what it returns is equal to what the
    built searcher returns for a query that matches nothing. *)
Lemma search_before_build_counterexample :
  ~ (forall (lib : Library) self query top_k,
        embeddings self = None ->
        (exists e, Eff.value (@search lib self query top_k) = Raised e)
        \/ (forall self' query',
              embeddings self' <> None ->
              Eff.value (@search lib self query top_k)
              <> Eff.value (@search lib self' query' top_k))).
Proof.
  intros H.
  destruct (H Examples.sample_library Examples.loaded (txt "lait") 5%Z
              eq_refl) as [[e He] | Hd].
  - vm_compute in He. discriminate.
  - apply (Hd Examples.built (txt "pain")).
    + vm_compute. discriminate.
    + vm_compute. reflexivity.
Qed.

(* ================================================================== *)
(** ** Which methods touch the file system *)

Module IoFacts.
Import SearchFacts CategoryFacts.

Lemma search_loop_quiet self sims rows :
  console_only (Eff.trace (search_loop self sims rows)).
Proof.
  destruct (search_loop_cases self sims rows) as [-> | ->]; constructor.
Qed.

Lemma similar_loop_quiet self sims rows :
  console_only (Eff.trace (similar_loop self sims rows)).
Proof.
  destruct (similar_loop_cases self sims rows) as [-> | ->]; constructor.
Qed.

Lemma category_loop_quiet self sims pairs :
  console_only (Eff.trace (category_loop self sims pairs)).
Proof.
  destruct (category_loop_cases self sims pairs) as [-> | ->]; constructor.
Qed.

Lemma take_rows_quiet E rows : console_only (Eff.trace (take_rows E rows)).
Proof.
  destruct (take_rows_cases E rows) as [[_ ->] | ->]; constructor.
Qed.

Lemma display_quiet rs q : console_only (Eff.trace (display_results rs q)).
Proof. repeat constructor. Qed.

Section WithLibrary.
Context {lib : Library}.

Lemma transform_quiet v doc : console_only (Eff.trace (transform v doc)).
Proof. destruct v; constructor. Qed.

Lemma cosine_similarity_quiet X Y :
  console_only (Eff.trace (cosine_similarity X Y)).
Proof. destruct X, Y; constructor. Qed.

Lemma fit_transform_quiet raw : console_only (Eff.trace (fit_transform raw)).
Proof.
  unfold fit_transform.
  destruct (sorted_terms _); [constructor|].
  destruct (Qltb _ _); [constructor|].
  destruct (limit_features _ _); constructor.
Qed.

#[local] Hint Resolve search_loop_quiet similar_loop_quiet
  category_loop_quiet take_rows_quiet display_quiet transform_quiet
  cosine_similarity_quiet fit_transform_quiet : trace.

Lemma search_quiet self query top_k :
  console_only (Eff.trace (search self query top_k)).
Proof.
  unfold search. destruct (embeddings self); auto 10 with trace.
Qed.

Lemma batch_loop_quiet self top_k queries d :
  console_only (Eff.trace (batch_loop self top_k queries d)).
Proof.
  revert d. induction queries as [|q r IH]; intros d; cbn [batch_loop].
  - constructor.
  - apply TraceFacts.console_only_bind; [apply search_quiet|].
    intros rs. apply TraceFacts.console_only_bind; auto with trace.
Qed.

Lemma batch_search_quiet self queries top_k :
  console_only (Eff.trace (batch_search self queries top_k)).
Proof.
  unfold batch_search.
  apply TraceFacts.console_only_bind; auto with trace.
  intros _. apply batch_loop_quiet.
Qed.

Lemma similar_products_quiet self product_index top_k :
  console_only (Eff.trace (similar_products self product_index top_k)).
Proof.
  unfold similar_products.
  destruct (_ <=? _)%Z; [auto 10 with trace|].
  destruct (embeddings self); [|auto with trace].
  apply TraceFacts.console_only_bind; [auto with trace|].
  intros sims. destruct (setitem _ _ _); auto with trace.
Qed.

Lemma generate_embeddings_quiet self :
  console_only (Eff.trace (generate_embeddings self)).
Proof.
  unfold generate_embeddings.
  destruct (products self); auto 10 with trace.
Qed.

(** [search_by_category] opens the CSV first; the rest is console only. *)
Lemma search_by_category_reads_csv fs self query category top_k :
  exists t',
    Eff.trace (search_by_category fs self query category top_k)
      = ReadFile CLEAN_CSV :: t'
    /\ console_only t'.
Proof.
  unfold search_by_category. rewrite EffFacts.bind_emit.
  eexists. split; [reflexivity|]. cbv beta.
  match goal with |- console_only (fst ?X) => change (console_only (Eff.trace X)) end.
  destruct (csv_files fs CLEAN_CSV) as [df|]; [|auto 10 with trace].
  destruct (categorie df) as [col|]; [|auto with trace].
  destruct (matching_rows category 0 col); [auto 10 with trace|].
  apply TraceFacts.console_only_bind; [auto with trace|].
  intros qv. destruct (embeddings self); [|auto with trace].
  apply TraceFacts.console_only_bind; [auto with trace|].
  intros rows. apply TraceFacts.console_only_bind; auto with trace.
Qed.

End WithLibrary.
End IoFacts.

(** C9, as amended.  [search], [batch_search], [similar_products] and the
    index build emit console output only, whatever their arguments and
    however they end; [search_by_category] opens the cleaned CSV file at
    every call, before anything else, and that read is its only file
    event.  Loading the catalogue reads a file and exporting writes one. *)
Theorem query_methods_file_io {lib : Library} fs self query queries
  category product_index top_k path (exported : dict (list result)) :
  console_only (Eff.trace (search self query top_k))
  /\ console_only (Eff.trace (batch_search self queries top_k))
  /\ console_only (Eff.trace (similar_products self product_index top_k))
  /\ console_only (Eff.trace (generate_embeddings self))
  /\ (exists t',
        Eff.trace (search_by_category fs self query category top_k)
          = ReadFile CLEAN_CSV :: t'
        /\ console_only t')
  /\ In (ReadFile path) (Eff.trace (load_products fs self path))
  /\ In (WriteFile path) (Eff.trace (export_results exported path)).
Proof.
  repeat split.
  - apply IoFacts.search_quiet.
  - apply IoFacts.batch_search_quiet.
  - apply IoFacts.similar_products_quiet.
  - apply IoFacts.generate_embeddings_quiet.
  - apply IoFacts.search_by_category_reads_csv.
  - unfold load_products.
    destruct (json_files fs path); simpl; auto.
  - simpl. auto.
Qed.

(** C9, as stated, fails: it is not the case that every query evaluation
    is free of file I/O.  [search_by_category] on the sample searcher
    reads [produits_marjane_clean.csv]. *)
Lemma query_file_io_counterexample :
  ~ (forall (lib : Library) fs self query category top_k,
        console_only
          (Eff.trace (@search_by_category lib fs self query category top_k))).
Proof.
  intros H.
  specialize (H Examples.sample_library Examples.disk Examples.built
                (txt "lait") Examples.ALIMENTAIRE 5%Z).
  vm_compute in H. inversion H as [|? ? Hio _]. discriminate.
Qed.

(* ================================================================== *)
(** ** Queries that project to the zero vector *)

Module ZeroFacts.
Import NumpyFacts SearchFacts.

Lemma search_loop_none self sims rows :
  (forall idx, positive sims idx = false) ->
  search_loop self sims rows = ([], Returned []).
Proof.
  intros H. induction rows as [|idx rest IH]; simpl; [reflexivity|].
  specialize (H idx). unfold positive in H. now rewrite H.
Qed.

Lemma positive_zero sims :
  all_zero sims -> forall idx, positive sims idx = false.
Proof.
  intros H idx. unfold positive. apply Qltb_ge.
  unfold at_. destruct (nth_in_or_default idx sims 0) as [Hin | ->].
  - unfold all_zero in H. rewrite Forall_forall in H.
    rewrite (H _ Hin). apply Qle_refl.
  - apply Qle_refl.
Qed.

Section WithLibrary.
Context {lib : Library}.

Lemma dot_zero_l a b : all_zero a -> dot a b == 0.
Proof.
  intros H. revert b. induction H as [|x a Hx _ IH]; intros b.
  - reflexivity.
  - destruct b as [|y b]; [reflexivity|].
    unfold dot in *. simpl. rewrite IH, Hx. ring.
Qed.

Lemma normalize_row_zero a : all_zero a -> all_zero (normalize_row a).
Proof.
  intros H. unfold normalize_row, all_zero. rewrite Forall_map.
  unfold all_zero in H. rewrite Forall_forall in H |- *.
  intros x Hx. rewrite (H x Hx). unfold Qdiv. ring.
Qed.

(** A text with no indexed term projects to the zero vector. *)
Lemma tfidf_row_no_terms v : all_zero (tfidf_row v []).
Proof.
  unfold tfidf_row. apply normalize_row_zero.
  unfold all_zero. rewrite Forall_map. rewrite Forall_forall.
  intros [t w] _. simpl. unfold Qnat. simpl. ring.
Qed.

Lemma cosine_row_zero x y : all_zero x -> cosine_row x y == 0.
Proof.
  intros H. unfold cosine_row. apply dot_zero_l.
  now apply normalize_row_zero.
Qed.

Lemma scores_zero v E query :
  analyze (preprocess_text (JStr query)) = [] ->
  all_zero (scores v E query).
Proof.
  intros H. unfold scores, query_vector, all_zero. rewrite H.
  rewrite Forall_map. rewrite Forall_forall. intros y _.
  apply cosine_row_zero, tfidf_row_no_terms.
Qed.



End WithLibrary.
End ZeroFacts.

(* ================================================================== *)
(** ** The batch of queries *)

Module BatchFacts.
Import ListFacts SearchFacts.

Lemma text_eqb_sym a b : text_eqb a b = text_eqb b a.
Proof.
  destruct (text_eqb a b) eqn:E1, (text_eqb b a) eqn:E2; try reflexivity.
  - apply text_eqb_eq in E1. subst. now rewrite text_eqb_refl in E2.
  - apply text_eqb_eq in E2. subst. now rewrite text_eqb_refl in E1.
Qed.

Lemma dict_keys_set {V} (d : dict V) k v :
  dict_keys (dict_set d k v) =
  if mem k (dict_keys d) then dict_keys d else dict_keys d ++ [k].
Proof.
  unfold dict_keys, mem. induction d as [|[k' v'] r IH]; simpl;
    [reflexivity|].
  rewrite (text_eqb_sym k k').
  destruct (text_eqb k' k); simpl; [reflexivity|].
  rewrite IH. now destruct (existsb (text_eqb k) (map fst r)).
Qed.

Lemma dict_lookup_set {V} (d : dict V) k v q :
  dict_lookup (dict_set d k v) q =
  if text_eqb k q then Some v else dict_lookup d q.
Proof.
  induction d as [|[k' v'] r IH]; simpl; [reflexivity|].
  destruct (text_eqb k' k) eqn:E; simpl.
  - apply text_eqb_eq in E. subst. now destruct (text_eqb k q).
  - rewrite IH. destruct (text_eqb k' q) eqn:E'; [|reflexivity].
    destruct (text_eqb k q) eqn:E''; [|reflexivity].
    apply text_eqb_eq in E', E''. subst.
    now rewrite text_eqb_refl in E.
Qed.

Lemma filter_filter {A} (P R : A -> bool) l :
  filter P (filter R l) = filter (fun x => R x && P x) l.
Proof.
  induction l as [|x l IH]; simpl; [reflexivity|].
  destruct (R x); simpl; [|exact IH]. destruct (P x); now rewrite IH.
Qed.

Lemma mem_snoc x K q : mem x (K ++ [q]) = mem x K || text_eqb x q.
Proof.
  unfold mem. rewrite existsb_app. simpl. now rewrite orb_false_r.
Qed.


Section WithLibrary.
Context {lib : Library}.

Lemma search_is_search_value self query top_k :
  well_formed self ->
  exists t, search self query top_k = (t, Returned (search_value self query top_k)).
Proof.
  intros W. destruct (search_total self query top_k W) as [t [rs H]].
  exists t. unfold search_value. now rewrite H.
Qed.

(** The loop of [batch_search] from the dictionary [d]: the new keys are
    appended in the order they first occur, and every query of the batch
    is mapped to the result of its own search. *)
Lemma batch_loop_spec self top_k queries :
  well_formed self ->
  forall d, exists t d',
    batch_loop self top_k queries d = (t, Returned d')
    /\ dict_keys d' =
       dict_keys d
       ++ filter (fun q => negb (mem q (dict_keys d)))
            (first_occurrences queries)
    /\ (forall q, dict_lookup d' q =
                  if mem q queries then Some (search_value self q top_k)
                  else dict_lookup d q).
Proof.
  intros W. induction queries as [|q r IH]; intros d.
  - exists [], d. simpl. rewrite app_nil_r. auto.
  - cbn [batch_loop].
    destruct (search_is_search_value self q top_k W) as [tq Hq].
    rewrite Hq. rewrite EffFacts.bind_pure. cbv beta.
    unfold display_results. rewrite EffFacts.bind_emit.
    set (v := search_value self q top_k).
    destruct (IH (dict_set d q v)) as [t [d' [Hrun [Hkeys Hlook]]]].
    rewrite Hrun. simpl fst. simpl snd.
    eexists. exists d'. split; [reflexivity|]. split.
    + rewrite Hkeys. rewrite dict_keys_set. cbn [first_occurrences filter].
      destruct (mem q (dict_keys d)) eqn:Hm; cbn [negb].
      * f_equal. rewrite filter_filter. apply filter_ext_in.
        intros x _. destruct (text_eqb x q) eqn:E; [|reflexivity].
        apply text_eqb_eq in E. subst. now rewrite Hm.
      * rewrite <- app_assoc. f_equal. cbn [app]. f_equal.
        rewrite filter_filter. apply filter_ext.
        intros x. rewrite mem_snoc. rewrite negb_orb. apply andb_comm.
    + intros x. rewrite Hlook. rewrite dict_lookup_set.
      unfold mem. cbn [existsb]. fold (mem x r).
      rewrite (text_eqb_sym x q).
      destruct (mem x r); [now rewrite orb_true_r|].
      rewrite orb_false_r.
      destruct (text_eqb q x) eqn:E; [|reflexivity].
      apply text_eqb_eq in E. now subst.
Qed.

End WithLibrary.
End BatchFacts.



(* ================================================================== *)
(** ** The index build and the stop words *)

Module VocabularyFacts.
Import ListFacts.

Section WithLibrary.
Context {lib : Library}.

Lemma insert_term_in t l x : In x (insert_term t l) -> x = t \/ In x l.
Proof.
  induction l as [|u r IH]; simpl.
  - intros [<- | []]. now left.
  - destruct (text_eqb t u); [now right|].
    destruct (text_ltb t u).
    + intros [<- | H]; [now left | now right].
    + intros [<- | H]; [right; now left|].
      destruct (IH H) as [-> | H']; [now left | right; now right].
Qed.

Lemma sorted_terms_in docs x :
  In x (sorted_terms docs) -> In x (concat docs).
Proof.
  unfold sorted_terms. induction (concat docs) as [|t l IH]; simpl;
    [tauto|].
  intros H. destruct (insert_term_in _ _ _ H) as [-> | H'];
    [now left | right; now apply IH].
Qed.

Lemma limit_features_in docs vocab x :
  In x (limit_features docs vocab) -> In x vocab.
Proof.
  unfold limit_features.
  set (masked := filter _ vocab).
  assert (Hm : forall y, In y masked -> In y vocab)
    by (intros y Hy; now apply filter_In in Hy).
  destruct (_ <? _)%nat; [|apply Hm].
  intros H. apply in_map_iff in H. destruct H as [[i y] [<- H]].
  apply filter_In in H. destruct H as [H _].
  apply in_combine_r in H. now apply Hm.
Qed.

Lemma bigrams_in tokens b :
  In b (bigrams tokens) ->
  exists x y, In x tokens /\ In y tokens /\ b = x ++ [SPACE] ++ y.
Proof.
  induction tokens as [|a r IH]; simpl; [tauto|].
  destruct r as [|c r']; [simpl; tauto|].
  intros [<- | H].
  - exists a, c. repeat split; [now left | right; now left].
  - destruct (IH H) as [x [y [Hx [Hy ->]]]].
    exists x, y. repeat split; now right.
Qed.

(** What the analyser yields: a word that is not a stop word, or two such
    words joined by a space. *)
Lemma analyze_in doc term :
  In term (analyze doc) ->
  is_stop_word term = false
  \/ exists x y, is_stop_word x = false /\ is_stop_word y = false
                 /\ term = x ++ [SPACE] ++ y.
Proof.
  unfold analyze. set (tokens := filter _ _).
  assert (Hk : forall w, In w tokens -> is_stop_word w = false).
  { intros w Hw. apply filter_In in Hw. destruct Hw as [_ Hw].
    now apply negb_true_iff in Hw. }
  intros H. apply in_app_or in H. destruct H as [H | H].
  - left. now apply Hk.
  - right. destruct (bigrams_in _ _ H) as [x [y [Hx [Hy ->]]]].
    exists x, y. repeat split; now apply Hk.
Qed.

Lemma analyze_only_stop_words doc :
  Forall (fun w => is_stop_word w = true) (tokenize (lower doc)) ->
  analyze doc = [].
Proof.
  intros H. unfold analyze.
  replace (filter _ (tokenize (lower doc))) with (@nil text); [reflexivity|].
  symmetry. induction H as [|w l Hw _ IH]; simpl; [reflexivity|].
  now rewrite Hw.
Qed.

(** A string with a space in it is not a stop word when no stop word has
    a space. *)
Lemma pair_not_stop_word x y :
  Forall (fun w => ~ In SPACE w) ENGLISH_STOP_WORDS ->
  is_stop_word (x ++ [SPACE] ++ y) = false.
Proof.
  intros H. unfold is_stop_word.
  destruct (existsb _ _) eqn:E; [|reflexivity].
  apply existsb_exists in E. destruct E as [w [Hw E]].
  apply text_eqb_eq in E. rewrite Forall_forall in H.
  exfalso. apply (H w Hw). rewrite <- E.
  apply in_or_app. right. now left.
Qed.

(** What a successful fit leaves behind. *)
Lemma fit_transform_returned raw t v E :
  fit_transform raw = (t, Returned (v, E)) ->
  t = []
  /\ vocabulary_ v =
     limit_features (map analyze raw) (sorted_terms (map analyze raw))
  /\ E = map (tfidf_row v) (map analyze raw)
  /\ raw <> [].
Proof.
  unfold fit_transform. intros H.
  destruct (sorted_terms (map analyze raw)) as [|t0 ts] eqn:Hs;
    [discriminate|].
  destruct (Qltb _ _); [discriminate|].
  destruct (limit_features _ _) as [|u us] eqn:Hl; [discriminate|].
  inversion H; subst. repeat split.
  intros ->. discriminate.
Qed.

Lemma vocabulary_has_no_stop_word raw t v E :
  Forall (fun w => ~ In SPACE w) ENGLISH_STOP_WORDS ->
  fit_transform raw = (t, Returned (v, E)) ->
  Forall (fun term => is_stop_word term = false) (vocabulary_ v).
Proof.
  intros Hsp H. apply fit_transform_returned in H.
  destruct H as [_ [Hv _]]. rewrite Hv. rewrite Forall_forall.
  intros term Hin. apply limit_features_in, sorted_terms_in in Hin.
  apply in_concat in Hin. destruct Hin as [d [Hd Hin]].
  apply in_map_iff in Hd. destruct Hd as [doc [<- _]].
  destruct (analyze_in _ _ Hin) as [Hk | [x [y [_ [_ ->]]]]];
    [exact Hk | now apply pair_not_stop_word].
Qed.

Lemma generate_embeddings_returned self t self' :
  generate_embeddings self = (t, Returned (self', true)) ->
  exists v E,
    fit_transform (map preprocess_text (titles self)) = ([], Returned (v, E))
    /\ self' = mkSearcher (Some v) (products self) (Some E) (titles self).
Proof.
  unfold generate_embeddings. intros H.
  destruct (products self) as [|p ps]; [inversion H|].
  unfold Eff.print in H. rewrite EffFacts.bind_emit in H. cbv beta in H.
  destruct (fit_transform (map preprocess_text (titles self)))
    as [tf [[v E]|e]] eqn:Hfit.
  - destruct (fit_transform_returned _ Hfit) as [-> _].
    exists v, E. split; [reflexivity|].
    unfold Eff.bind in H. simpl in H. now inversion H.
  - unfold Eff.bind in H. simpl in H. discriminate.
Qed.

End WithLibrary.
End VocabularyFacts.

Section Build.
Context {lib : Library}.
Import VocabularyFacts.

(** The state after [load_products] on a fresh searcher has one title per
    product and no matrix. *)
Lemma load_products_fresh fs path t s b :
  load_products fs init path = (t, Returned (s, b)) ->
  embeddings s = None
  /\ List.length (titles s) = List.length (products s).
Proof.
  unfold load_products, Eff.print, Eff.bind, Eff.emit, Eff.ret.
  destruct (json_files fs path) as [ps|]; simpl; intros H;
    inversion H; subst; simpl.
  - split; [reflexivity | apply length_map].
  - now split.
Qed.

(** The order of [main]: create, load, build.  The state it reaches is
    well formed, and so is the state before the build. *)
Lemma well_formed_after_build fs path t1 s1 b1 t2 s2 :
  load_products fs init path = (t1, Returned (s1, b1)) ->
  generate_embeddings s1 = (t2, Returned (s2, true)) ->
  well_formed s1 /\ well_formed s2.
Proof.
  intros Hload Hgen.
  destruct (load_products_fresh _ _ Hload) as [Hnone Hlen].
  split; [unfold well_formed; now rewrite Hnone|].
  destruct (generate_embeddings_returned _ Hgen) as [v [E [Hfit ->]]].
  destruct (fit_transform_returned _ Hfit) as [_ [_ [-> Hne]]].
  unfold well_formed. simpl. repeat split.
  - discriminate.
  - destruct (titles s1); [now elim Hne | discriminate].
  - now rewrite !length_map.
Qed.

End Build.

(** C10.  After a successful index build, no term of the vocabulary is an
    English stop word (the stop list holding single words), and a query
    whose normalised text consists only of stop words projects to the zero
    vector, so that [search] returns the empty list for it, whether or not
    the words occur in the titles of the catalogue. *)
Theorem stop_words_pruned_from_index {lib : Library} self t self' query
  top_k :
  generate_embeddings self = (t, Returned (self', true)) ->
  Forall (fun w => ~ In SPACE w) ENGLISH_STOP_WORDS ->
  Forall (fun w => is_stop_word w = true)
    (tokenize (lower (preprocess_text (JStr query)))) ->
  exists v E,
    vectorizer self' = Some v /\ embeddings self' = Some E
    /\ Forall (fun term => is_stop_word term = false) (vocabulary_ v)
    /\ all_zero (query_vector v query)
    /\ search self' query top_k = ([], Returned []).
Proof.
  intros Hgen Hsp Hq.
  destruct (VocabularyFacts.generate_embeddings_returned _ Hgen)
    as [v [E [Hfit ->]]].
  assert (Hana : analyze (preprocess_text (JStr query)) = [])
    by now apply VocabularyFacts.analyze_only_stop_words.
  exists v, E. simpl. repeat split.
  - exact (@VocabularyFacts.vocabulary_has_no_stop_word lib _ _ _ _ Hsp Hfit).
  - unfold query_vector. rewrite Hana. apply ZeroFacts.tfidf_row_no_terms.
  - destruct (VocabularyFacts.fit_transform_returned _ Hfit)
      as [_ [_ [HE Hne]]].
    assert (HEne : E <> []).
    { rewrite HE. destruct (titles self); [now elim Hne | discriminate]. }
    rewrite (@SearchFacts.search_built lib
               (mkSearcher (Some v) (products self) (Some E) (titles self))
               v E query top_k eq_refl eq_refl HEne).
    apply ZeroFacts.search_loop_none, ZeroFacts.positive_zero.
    now apply ZeroFacts.scores_zero.
Qed.

Lemma stop_words_pruned_from_index_witness :
  exists v E,
    vectorizer Examples.built = Some v /\ embeddings Examples.built = Some E
    /\ Forall (fun term => @is_stop_word Examples.sample_library term = false)
         (vocabulary_ v)
    /\ all_zero (@query_vector Examples.sample_library v (txt "the"))
    /\ @search Examples.sample_library Examples.built (txt "the") 5
       = ([], Returned []).
Proof.
  apply (@stop_words_pruned_from_index Examples.sample_library
           Examples.loaded
           [Print (MsgGenerating 3); Print (MsgGenerated 3 2)]
           Examples.built (txt "the") 5).
  - vm_compute. reflexivity.
  - repeat (constructor; [vm_compute; intuition discriminate|]).
    constructor.
  - vm_compute. repeat constructor.
Defined.

(* ================================================================== *)
(** * Further properties of the search methods *)

Module BoundsFacts.
Import NumpyFacts ListFacts RankFacts SearchFacts.

Lemma firstn_nodup {A} n (l : list A) : NoDup l -> NoDup (firstn n l).
Proof.
  intros H. rewrite <- (firstn_skipn n l) in H.
  now apply NoDup_app_remove_r in H.
Qed.

Lemma nodup_map_of_nat (l : list nat) : NoDup l -> NoDup (map Z.of_nat l).
Proof.
  induction 1 as [|x l Hx _ IH]; simpl; constructor; [|exact IH].
  intros Hin. apply in_map_iff in Hin. destruct Hin as [y [Hy Hin]].
  apply Nat2Z.inj in Hy. now subst.
Qed.

Lemma top_nodup {lib : Library} sims k : NoDup (top sims k).
Proof.
  unfold top. destruct (slice_to_firstn k (rev (argsort sims))) as [n ->].
  apply firstn_nodup. apply NoDup_rev.
  apply (Permutation_NoDup (Permutation_sym (argsort_perm sims))).
  apply seq_NoDup.
Qed.

Lemma top_length {lib : Library} sims k :
  (0 <= k)%Z ->
  List.length (top sims k) = Nat.min (Z.to_nat k) (List.length sims).
Proof.
  intros Hk. unfold top, slice_to.
  replace (0 <=? k)%Z with true by (symmetry; now apply Z.leb_le).
  now rewrite length_firstn, length_rev, argsort_length.
Qed.

(** When the loop of [search] returns, every row it kept had a product. *)
Lemma search_loop_returned self sims rows t rs :
  search_loop self sims rows = (t, Returned rs) ->
  t = []
  /\ rs = map (result_at self sims) (filter (positive sims) rows)
  /\ Forall (fun idx => (idx < List.length (products self))%nat)
       (filter (positive sims) rows).
Proof.
  revert t rs. induction rows as [|idx rest IH]; intros t rs H; simpl in H.
  - inversion H. repeat split. constructor.
  - cbn [filter]. destruct (positive sims idx) eqn:Hp;
      unfold positive in Hp; rewrite Hp in H; [|now apply IH].
    destruct (get_product_cases self idx) as [[Hlt R] | [_ R]];
      rewrite R in H; [|discriminate].
    rewrite EffFacts.bind_pure in H. cbv beta in H.
    destruct (search_loop self sims rest) as [t' [rs'|e]] eqn:Hrest;
      [|discriminate].
    destruct (IH _ _ eq_refl) as [-> [-> Hall]].
    simpl in H. inversion H; subst. repeat split. now constructor.
Qed.

Lemma similar_loop_returned self sims rows t rs :
  similar_loop self sims rows = (t, Returned rs) ->
  t = [] /\ rs = map (result_at self sims) rows.
Proof.
  intros H. destruct (similar_loop_cases self sims rows) as [R | R];
    rewrite R in H; inversion H; auto.
Qed.

End BoundsFacts.

(** X1.  Every entry that [search] returns has a similarity above zero:
    the loop drops the selected rows whose score is zero or negative. *)
Theorem search_returns_positive_scores_only {lib : Library} self query top_k
  t rs :
  search self query top_k = (t, Returned rs) ->
  Forall (fun r => 0 < similarite r) rs.
Proof.
  intros H. apply SearchFacts.search_returned in H.
  destruct H as [[_ [_ ->]] | [v [E [_ [_ [_ [_ ->]]]]]]]; [constructor|].
  rewrite Forall_forall. intros r Hr.
  apply in_map_iff in Hr. destruct Hr as [i [<- Hi]].
  apply filter_In in Hi. destruct Hi as [_ Hpos].
  simpl. now apply NumpyFacts.Qltb_lt.
Qed.

Lemma search_returns_positive_scores_only_witness :
  Forall (fun r => 0 < similarite r) Examples.lait_results.
Proof.
  apply (@search_returns_positive_scores_only Examples.sample_library
           Examples.built (txt "lait") 5 [] Examples.lait_results).
  vm_compute. reflexivity.
Defined.

(** X2.  A result list of [search] has at most [top_k] entries when
    [top_k] is not negative, never more entries than the matrix has rows,
    and no row appears in it twice. *)
Theorem search_result_count {lib : Library} self query top_k t rs E :
  search self query top_k = (t, Returned rs) ->
  embeddings self = Some E ->
  (0 <= top_k)%Z ->
  (List.length rs <= Z.to_nat top_k)%nat
  /\ (List.length rs <= List.length E)%nat
  /\ NoDup (map index rs).
Proof.
  intros H HE Hk. apply SearchFacts.search_returned in H.
  destruct H as [[Hn _] | [v [E' [HE' [_ [_ [_ ->]]]]]]]; [congruence|].
  assert (E' = E) by congruence. subst E'.
  set (sims := scores v E query).
  assert (Hlen : (List.length (filter (positive sims) (top sims top_k))
                  <= List.length (top sims top_k))%nat)
    by apply filter_length_le.
  rewrite (BoundsFacts.top_length sims Hk) in Hlen.
  assert (Hs : List.length sims = List.length E)
    by (unfold sims, scores; apply length_map).
  rewrite length_map. repeat split; try lia.
  rewrite map_map. simpl.
  apply BoundsFacts.nodup_map_of_nat.
  apply NoDup_filter, BoundsFacts.top_nodup.
Qed.

Lemma search_result_count_witness :
  (List.length Examples.lait_results <= Z.to_nat 5)%nat
  /\ (List.length Examples.lait_results <= 3)%nat
  /\ NoDup (map index Examples.lait_results).
Proof.
  apply (@search_result_count Examples.sample_library Examples.built
           (txt "lait") 5 [] Examples.lait_results
           (match embeddings Examples.built with Some E => E | None => [] end)).
  - vm_compute. reflexivity.
  - vm_compute. reflexivity.
  - lia.
Defined.

(** X3.  Every entry of a result list of [search] points into the
    catalogue and carries the title, the price and the image of the
    product at its index, each the empty string when the product has no such
    key, with the percentage a hundred times the similarity. *)
Theorem search_result_fields {lib : Library} self query top_k t rs r :
  search self query top_k = (t, Returned rs) -> In r rs ->
  exists idx p,
    index r = Z.of_nat idx
    /\ nth_error (products self) idx = Some p
    /\ titre r = dict_get p (txt "title") (JStr [])
    /\ prix r = dict_get p (txt "price") (JStr [])
    /\ image r = dict_get p (txt "image") (JStr [])
    /\ score_pourcentage r = similarite r * 100.
Proof.
  intros H Hr. destruct (embeddings self) as [E|] eqn:HE.
  - destruct (vectorizer self) as [v|] eqn:Hv.
    + destruct E as [|e E'].
      * unfold search in H. rewrite HE, Hv in H. discriminate.
      * rewrite (SearchFacts.search_built self query top_k HE Hv) in H
          by discriminate.
        apply BoundsFacts.search_loop_returned in H.
        destruct H as [_ [-> Hall]].
        apply in_map_iff in Hr. destruct Hr as [idx [<- Hidx]].
        rewrite Forall_forall in Hall. specialize (Hall idx Hidx).
        exists idx, (nth idx (products self) []).
        repeat split. now apply nth_error_nth'.
    + unfold search in H. rewrite HE, Hv in H. discriminate.
  - rewrite (SearchFacts.search_unbuilt self query top_k HE) in H.
    inversion H; subst. contradiction.
Qed.

Lemma search_result_fields_witness :
  exists idx p,
    index (hd (mkResult 0 JNull JNull JNull 0 0) Examples.lait_results)
      = Z.of_nat idx
    /\ nth_error (products Examples.built) idx = Some p
    /\ titre (hd (mkResult 0 JNull JNull JNull 0 0) Examples.lait_results)
       = dict_get p (txt "title") (JStr [])
    /\ prix (hd (mkResult 0 JNull JNull JNull 0 0) Examples.lait_results)
       = dict_get p (txt "price") (JStr [])
    /\ image (hd (mkResult 0 JNull JNull JNull 0 0) Examples.lait_results)
       = dict_get p (txt "image") (JStr [])
    /\ score_pourcentage
         (hd (mkResult 0 JNull JNull JNull 0 0) Examples.lait_results)
       = similarite
           (hd (mkResult 0 JNull JNull JNull 0 0) Examples.lait_results) * 100.
Proof.
  apply (@search_result_fields Examples.sample_library Examples.built
           (txt "lait") 5 [] Examples.lait_results).
  - vm_compute. reflexivity.
  - left. reflexivity.
Defined.

Module SimilarFacts.
Import NumpyFacts ListFacts RankFacts SearchFacts BoundsFacts.

Lemma slice_one_negative {A} (l : list A) (i : Z) :
  (- Z.of_nat (List.length l) <= i <= -2)%Z ->
  slice_one i l = slice_one (Z.of_nat (List.length l) + i) l.
Proof.
  intros Hi. unfold slice_one.
  set (n := Z.of_nat (List.length l)) in *.
  replace (i <? 0)%Z with true by (symmetry; apply Z.ltb_lt; lia).
  replace (i + 1 <? 0)%Z with true by (symmetry; apply Z.ltb_lt; lia).
  replace (n + i <? 0)%Z with false by (symmetry; apply Z.ltb_ge; lia).
  replace (n + i + 1 <? 0)%Z with false by (symmetry; apply Z.ltb_ge; lia).
  f_equal; [f_equal; lia | f_equal; f_equal; lia].
Qed.

Lemma slice_one_outside {A} (l : list A) (i : Z) :
  i = (-1)%Z \/ (i < - Z.of_nat (List.length l))%Z ->
  slice_one i l = [].
Proof.
  intros Hi. unfold slice_one.
  set (n := Z.of_nat (List.length l)) in *.
  assert (Hn : (0 <= n)%Z) by (unfold n; lia).
  replace (i <? 0)%Z with true by (symmetry; apply Z.ltb_lt; lia).
  destruct (i + 1 <? 0)%Z eqn:E.
  - apply Z.ltb_lt in E.
    replace (Z.to_nat (Z.max (n + (i + 1)) 0 - Z.max (n + i) 0)) with O
      by lia.
    reflexivity.
  - apply Z.ltb_ge in E.
    replace (Z.to_nat (Z.min (i + 1) n - Z.max (n + i) 0)) with O by lia.
    reflexivity.
Qed.

Lemma setitem_negative (a : list Q) (i : Z) v :
  (- Z.of_nat (List.length a) <= i < 0)%Z ->
  setitem a i v = setitem a (Z.of_nat (List.length a) + i) v.
Proof.
  intros Hi. unfold setitem.
  set (n := Z.of_nat (List.length a)) in *.
  replace ((0 <=? i) && (i <? n))%Z with false
    by (symmetry; apply andb_false_iff; left; apply Z.leb_gt; lia).
  replace ((- n <=? i) && (i <? 0))%Z with true
    by (symmetry; apply andb_true_iff; split;
        [apply Z.leb_le | apply Z.ltb_lt]; lia).
  replace ((0 <=? n + i) && (n + i <? n))%Z with true
    by (symmetry; apply andb_true_iff; split;
        [apply Z.leb_le | apply Z.ltb_lt]; lia).
  reflexivity.
Qed.

Section WithLibrary.
Context {lib : Library}.

(** [similar_products] on a row of a built index: every selected row is
    returned, scored against the row [i], the row [i] itself at [-1]. *)
Lemma similar_products_valid self E (i : nat) top_k :
  embeddings self = Some E ->
  List.length E = List.length (products self) ->
  (i < List.length E)%nat ->
  similar_products self (Z.of_nat i) top_k =
  ([], Returned (map (result_at self (self_scores E i))
                   (top (self_scores E i) top_k))).
Proof.
  intros HE Hlen Hi. unfold similar_products. rewrite HE.
  replace (Z.of_nat (List.length (products self)) <=? Z.of_nat i)%Z
    with false by (symmetry; apply Z.leb_gt; lia).
  rewrite (@slice_one_row (list Q) E i [] Hi).
  assert (Hne : E <> []) by (intros ->; simpl in Hi; lia).
  rewrite (cosine_similarity_one _ Hne). rewrite EffFacts.bind_ret_l.
  cbn [hd].
  set (sims := map (cosine_row (nth i E [])) E).
  assert (Hs : List.length sims = List.length E)
    by (unfold sims; now rewrite length_map).
  unfold setitem. cbv zeta. rewrite Hs.
  replace ((0 <=? Z.of_nat i) && (Z.of_nat i <? Z.of_nat (List.length E)))%Z
    with true
    by (symmetry; apply andb_true_iff; split;
        [apply Z.leb_le | apply Z.ltb_lt]; lia).
  rewrite Nat2Z.id. fold (self_scores E i).
  fold (top (self_scores E i) top_k).
  apply similar_loop_total.
  rewrite Forall_forall. intros j Hj. apply top_in in Hj.
  unfold self_scores in Hj. rewrite set_nth_length, length_map in Hj. lia.
Qed.

End WithLibrary.
End SimilarFacts.

(** X4.  On a built index with one row per product, [similar_products]
    for a row [i] of the catalogue and a [top_k] that is not negative returns,
    without raising, exactly [min(top_k, n)] entries, no row twice: nothing
    is filtered out, whatever the scores. *)
Theorem similar_products_result_count {lib : Library} self E (i : nat) top_k :
  embeddings self = Some E ->
  List.length E = List.length (products self) ->
  (i < List.length E)%nat ->
  (0 <= top_k)%Z ->
  exists rs,
    similar_products self (Z.of_nat i) top_k = ([], Returned rs)
    /\ List.length rs = Nat.min (Z.to_nat top_k) (List.length E)
    /\ NoDup (map index rs).
Proof.
  intros HE Hlen Hi Hk.
  rewrite (SimilarFacts.similar_products_valid self top_k HE Hlen Hi).
  eexists. split; [reflexivity|]. split.
  - rewrite length_map, (BoundsFacts.top_length _ Hk).
    unfold self_scores. now rewrite set_nth_length, length_map.
  - rewrite map_map. simpl. apply BoundsFacts.nodup_map_of_nat.
    apply BoundsFacts.top_nodup.
Qed.

Lemma similar_products_result_count_witness :
  exists rs,
    @similar_products Examples.sample_library Examples.built (Z.of_nat 2) 2
      = ([], Returned rs)
    /\ List.length rs = Nat.min (Z.to_nat 2) 3
    /\ NoDup (map index rs).
Proof.
  apply (@similar_products_result_count Examples.sample_library
           Examples.built
           (match embeddings Examples.built with Some E => E | None => [] end)
           2%nat 2%Z).
  - vm_compute. reflexivity.
  - vm_compute. reflexivity.
  - vm_compute. lia.
  - lia.
Defined.

(** X5.  On a built index with [n] products, [similar_products(i, top_k)]
    with [0 <= i < n <= top_k] lists the product [i] itself, with the
    sentinel [-1] as its similarity: the sentinel only moves the row to the
    end of the ranking. *)
Theorem similar_products_lists_queried_row {lib : Library} self E (i : nat)
  top_k :
  embeddings self = Some E ->
  List.length E = List.length (products self) ->
  (i < List.length E)%nat ->
  (Z.of_nat (List.length E) <= top_k)%Z ->
  exists rs r,
    similar_products self (Z.of_nat i) top_k = ([], Returned rs)
    /\ In r rs /\ index r = Z.of_nat i /\ similarite r = - (1).
Proof.
  intros HE Hlen Hi Hk.
  rewrite (SimilarFacts.similar_products_valid self top_k HE Hlen Hi).
  exists (map (result_at self (self_scores E i)) (top (self_scores E i) top_k)),
    (result_at self (self_scores E i) i).
  repeat split.
  - apply in_map. apply RankFacts.top_all;
      unfold self_scores; rewrite set_nth_length, length_map; assumption.
  - simpl. unfold self_scores. apply set_nth_at. now rewrite length_map.
Qed.

Lemma similar_products_lists_queried_row_witness :
  exists rs r,
    @similar_products Examples.sample_library Examples.built (Z.of_nat 1) 3
      = ([], Returned rs)
    /\ In r rs /\ index r = Z.of_nat 1 /\ similarite r = - (1).
Proof.
  apply (@similar_products_lists_queried_row Examples.sample_library
           Examples.built
           (match embeddings Examples.built with Some E => E | None => [] end)
           1%nat 3%Z).
  - vm_compute. reflexivity.
  - vm_compute. reflexivity.
  - vm_compute. lia.
  - vm_compute. discriminate.
Defined.

(** X6.  [similar_products] with an index at or past the end of the
    catalogue prints the invalid-index line and returns the empty list; it
    raises nothing, built index or not. *)
Theorem similar_products_index_past_end {lib : Library} self product_index
  top_k :
  (Z.of_nat (List.length (products self)) <= product_index)%Z ->
  similar_products self product_index top_k =
  ([Print (MsgInvalidIndex product_index)], Returned []).
Proof.
  intros H. unfold similar_products.
  replace (Z.of_nat (List.length (products self)) <=? product_index)%Z
    with true by (symmetry; now apply Z.leb_le).
  reflexivity.
Qed.

Lemma similar_products_index_past_end_witness :
  @similar_products Examples.sample_library Examples.loaded 3 5
  = ([Print (MsgInvalidIndex 3)], Returned []).
Proof.
  apply (@similar_products_index_past_end Examples.sample_library
           Examples.loaded 3 5).
  vm_compute. discriminate.
Defined.

(** X7.  A negative index from [-n] to [-2] is not rejected: on a built
    index with [n] products, [similar_products(i, top_k)] is then exactly
    [similar_products(n + i, top_k)], the answer for the row counted from
    the end. *)
Theorem similar_products_negative_index_wraps {lib : Library} self E
  product_index top_k :
  embeddings self = Some E ->
  List.length E = List.length (products self) ->
  (- Z.of_nat (List.length E) <= product_index <= -2)%Z ->
  similar_products self product_index top_k =
  similar_products self (Z.of_nat (List.length E) + product_index) top_k.
Proof.
  intros HE Hlen Hi. unfold similar_products. rewrite HE, <- Hlen.
  replace (Z.of_nat (List.length E) <=? product_index)%Z
    with false by (symmetry; apply Z.leb_gt; lia).
  replace (Z.of_nat (List.length E)
           <=? Z.of_nat (List.length E) + product_index)%Z
    with false by (symmetry; apply Z.leb_gt; lia).
  rewrite (SimilarFacts.slice_one_negative E Hi).
  destruct (cosine_similarity _ E) as [tc [sims|e]] eqn:Hc; [|reflexivity].
  rewrite !EffFacts.bind_pure. cbv beta.
  assert (Hs : List.length (hd [] sims) = List.length E).
  { unfold cosine_similarity in Hc.
    destruct (slice_one _ E) as [|x xs]; [discriminate|].
    destruct E as [|e E']; [discriminate|].
    inversion Hc; subst. simpl. now rewrite length_map. }
  rewrite (SimilarFacts.setitem_negative (hd [] sims) (- (1)))
    by (rewrite Hs; lia).
  now rewrite Hs.
Qed.

Lemma similar_products_negative_index_wraps_witness :
  @similar_products Examples.sample_library Examples.built (-2) 5
  = @similar_products Examples.sample_library Examples.built (3 + -2) 5.
Proof.
  apply (@similar_products_negative_index_wraps Examples.sample_library
           Examples.built
           (match embeddings Examples.built with Some E => E | None => [] end)
           (-2)%Z 5%Z).
  - vm_compute. reflexivity.
  - vm_compute. reflexivity.
  - vm_compute. split; discriminate.
Defined.

(** X8.  The index [-1], and every index below [-n], selects an empty
    slice of the matrix: on a built index [similar_products] then raises
    the [ValueError] of [cosine_similarity] instead of returning. *)
Theorem similar_products_negative_index_raises {lib : Library} self E
  product_index top_k :
  embeddings self = Some E ->
  List.length E = List.length (products self) ->
  product_index = (-1)%Z \/ (product_index < - Z.of_nat (List.length E))%Z ->
  similar_products self product_index top_k = ([], Raised ValueError).
Proof.
  intros HE Hlen Hi. unfold similar_products. rewrite HE, <- Hlen.
  replace (Z.of_nat (List.length E) <=? product_index)%Z
    with false by (symmetry; apply Z.leb_gt; lia).
  now rewrite (SimilarFacts.slice_one_outside E Hi).
Qed.

Lemma similar_products_negative_index_raises_witness :
  @similar_products Examples.sample_library Examples.built (-7) 5
  = ([], Raised ValueError).
Proof.
  apply (@similar_products_negative_index_raises Examples.sample_library
           Examples.built
           (match embeddings Examples.built with Some E => E | None => [] end)
           (-7)%Z 5%Z).
  - vm_compute. reflexivity.
  - vm_compute. reflexivity.
  - right. vm_compute. reflexivity.
Defined.

Module CategoryEdgeFacts.
Import ListFacts CategoryFacts.

Lemma matching_rows_none category from col :
  ~ In (Some category) col -> matching_rows category from col = [].
Proof.
  revert from. induction col as [|c r IH]; intros from H; simpl;
    [reflexivity|].
  assert (Hr : ~ In (Some category) r) by (intros Hin; apply H; now right).
  destruct c as [label|]; [|now apply IH].
  destruct (text_eqb label category) eqn:E; [|now apply IH].
  apply text_eqb_eq in E. subst. exfalso. apply H. now left.
Qed.

Lemma matching_rows_some category from col :
  In (Some category) col -> matching_rows category from col <> [].
Proof.
  revert from. induction col as [|c r IH]; intros from H; simpl;
    [contradiction|].
  destruct H as [-> | H].
  - rewrite text_eqb_refl. discriminate.
  - destruct c as [label|]; [|now apply IH].
    destruct (text_eqb label category); [discriminate | now apply IH].
Qed.

(** Every row of the column labelled [category] is listed. *)
Lemma matching_rows_complete category from col g :
  nth_error col g = Some (Some category) ->
  In (from + g)%nat (matching_rows category from col).
Proof.
  revert from g. induction col as [|c r IH]; intros from g H.
  - destruct g; discriminate.
  - destruct g as [|g]; simpl in H.
    + inversion H; subst. simpl. rewrite text_eqb_refl. left. lia.
    + simpl. replace (from + S g)%nat with (S from + g)%nat by lia.
      destruct c as [label|]; [|now apply IH].
      destruct (text_eqb label category); [right|]; now apply IH.
Qed.

Lemma nodup_map_on {A B} (f : A -> B) l :
  (forall x y, In x l -> In y l -> f x = f y -> x = y) ->
  NoDup l -> NoDup (map f l).
Proof.
  intros Hf H. induction H as [|x l Hx _ IH]; simpl; constructor.
  - intros Hin. apply in_map_iff in Hin. destruct Hin as [y [Hy Hin]].
    apply Hf in Hy; [now subst | now right | now left].
  - apply IH. intros a b Ha Hb. apply Hf; now right.
Qed.

(** A strictly increasing list holds different values at different
    positions. *)
Lemma sorted_nth_inj l i j :
  StronglySorted lt l -> (i < List.length l)%nat -> (j < List.length l)%nat ->
  nth i l O = nth j l O -> i = j.
Proof.
  intros H Hi Hj Heq.
  destruct (Nat.lt_trichotomy i j) as [L | [E | L]]; [|exact E|].
  - pose proof (@sorted_nth_lt l i j H L Hj). lia.
  - pose proof (@sorted_nth_lt l j i H L Hi). lia.
Qed.

End CategoryEdgeFacts.

(** X9.  When the cleaned CSV file is absent, [search_by_category] tries
    to read it, prints the file-not-found line and returns the empty list,
    whatever the query, the category and the state of the searcher. *)
Theorem search_by_category_missing_csv {lib : Library} fs self query category
  top_k :
  csv_files fs CLEAN_CSV = None ->
  search_by_category fs self query category top_k =
  ([ReadFile CLEAN_CSV; Print (MsgFileNotFound CLEAN_CSV)], Returned []).
Proof.
  intros H. unfold search_by_category. rewrite H. reflexivity.
Qed.

Lemma search_by_category_missing_csv_witness :
  @search_by_category Examples.sample_library (mkFs (fun _ => None) (fun _ => None))
    Examples.built (txt "lait") Examples.ALIMENTAIRE 5
  = ([ReadFile CLEAN_CSV; Print (MsgFileNotFound CLEAN_CSV)], Returned []).
Proof.
  apply (@search_by_category_missing_csv Examples.sample_library
           (mkFs (fun _ => None) (fun _ => None)) Examples.built (txt "lait")
           Examples.ALIMENTAIRE 5).
  reflexivity.
Defined.

(** X10.  When no row of the [categorie] column carries the requested
    label, [search_by_category] prints the no-product line and returns the
    empty list; it does so before touching the vectoriser, so also on a
    searcher whose index is not built. *)
Theorem search_by_category_unknown_category {lib : Library} fs self query
  category top_k df col :
  csv_files fs CLEAN_CSV = Some df -> categorie df = Some col ->
  ~ In (Some category) col ->
  search_by_category fs self query category top_k =
  ([ReadFile CLEAN_CSV; Print (MsgNoCategory category)], Returned []).
Proof.
  intros Hcsv Hcol Hno. unfold search_by_category. rewrite Hcsv, Hcol.
  now rewrite (@CategoryEdgeFacts.matching_rows_none category 0%nat col Hno).
Qed.

Lemma search_by_category_unknown_category_witness :
  @search_by_category Examples.sample_library Examples.disk Examples.loaded
    (txt "lait") (txt "Autre") 5
  = ([ReadFile CLEAN_CSV; Print (MsgNoCategory (txt "Autre"))], Returned []).
Proof.
  apply (@search_by_category_unknown_category Examples.sample_library
           Examples.disk Examples.loaded (txt "lait") (txt "Autre") 5
           (mkDataFrame (Some [Some Examples.ALIMENTAIRE;
                               Some Examples.ALIMENTAIRE;
                               Some Examples.HYGIENE]))
           [Some Examples.ALIMENTAIRE; Some Examples.ALIMENTAIRE;
            Some Examples.HYGIENE]).
  - reflexivity.
  - reflexivity.
  - vm_compute. intuition discriminate.
Defined.

(** X11.  [search_by_category] has no guard on the index: when the
    category has a row and the vectoriser is not fitted, the call raises
    [NotFittedError], where [search] would print and return the empty
    list. *)
Theorem search_by_category_unbuilt_raises {lib : Library} fs self query
  category top_k df col :
  csv_files fs CLEAN_CSV = Some df -> categorie df = Some col ->
  In (Some category) col ->
  vectorizer self = None ->
  search_by_category fs self query category top_k =
  ([ReadFile CLEAN_CSV], Raised NotFittedError).
Proof.
  intros Hcsv Hcol Hin Hv. unfold search_by_category. rewrite Hcsv, Hcol, Hv.
  destruct (matching_rows category 0 col) eqn:E; [|reflexivity].
  now elim (@CategoryEdgeFacts.matching_rows_some category 0%nat col Hin).
Qed.

Lemma search_by_category_unbuilt_raises_witness :
  @search_by_category Examples.sample_library Examples.disk Examples.loaded
    (txt "lait") Examples.ALIMENTAIRE 5
  = ([ReadFile CLEAN_CSV], Raised NotFittedError).
Proof.
  apply (@search_by_category_unbuilt_raises Examples.sample_library
           Examples.disk Examples.loaded (txt "lait") Examples.ALIMENTAIRE 5
           (mkDataFrame (Some [Some Examples.ALIMENTAIRE;
                               Some Examples.ALIMENTAIRE;
                               Some Examples.HYGIENE]))
           [Some Examples.ALIMENTAIRE; Some Examples.ALIMENTAIRE;
            Some Examples.HYGIENE]).
  - reflexivity.
  - reflexivity.
  - left. reflexivity.
  - reflexivity.
Defined.

(** X12.  A [search_by_category] that returns for a category with rows
    returns exactly [min(top_k, size of the category)] entries when [top_k]
    is not negative, no row twice and every row one of the category: the
    rows are not filtered on their score. *)
Theorem search_by_category_result_count {lib : Library} fs self query
  category top_k t rs df col :
  search_by_category fs self query category top_k = (t, Returned rs) ->
  csv_files fs CLEAN_CSV = Some df -> categorie df = Some col ->
  In (Some category) col ->
  (0 <= top_k)%Z ->
  List.length rs
  = Nat.min (Z.to_nat top_k) (List.length (matching_rows category 0 col))
  /\ NoDup (map index rs)
  /\ Forall (fun r => exists g, index r = Z.of_nat g
                       /\ nth_error col g = Some (Some category)) rs.
Proof.
  intros H Hcsv Hcol Hin Hk.
  pose proof (@CategoryEdgeFacts.matching_rows_some category 0%nat col Hin)
    as Hne.
  unfold search_by_category in H. rewrite Hcsv, Hcol in H.
  rewrite EffFacts.bind_emit in H. cbv beta in H.
  match type of H with
  | (_ :: fst ?X, snd ?X) = _ => destruct X as [t' r] eqn:HX
  end.
  simpl in H. inversion H; subst. clear H.
  pose proof (CategoryFacts.matching_rows_sorted category 0 col) as Hsorted.
  pose proof (fun g => @CategoryFacts.matching_rows_in category 0%nat col g)
    as Hrows.
  destruct (matching_rows category 0 col) as [|g cat'] eqn:Hcat;
    [now elim Hne|].
  destruct (vectorizer self) as [v|] eqn:Hv; [|discriminate].
  unfold transform in HX. rewrite EffFacts.bind_ret_l in HX.
  destruct (embeddings self) as [E|] eqn:HE; [|discriminate].
  destruct (CategoryFacts.take_rows_cases E (g :: cat')) as [[_ R] | R];
    rewrite R in HX; [|discriminate].
  rewrite EffFacts.bind_ret_l in HX.
  rewrite SearchFacts.cosine_similarity_one in HX by discriminate.
  rewrite EffFacts.bind_ret_l in HX. cbn [hd] in HX.
  rewrite CategoryFacts.combine_map_self in HX.
  fold (query_vector v query) in HX.
  fold (category_scores v E (g :: cat') query) in HX.
  fold (top (category_scores v E (g :: cat') query) top_k) in HX.
  match type of HX with
  | category_loop ?a ?b ?c = _ =>
      destruct (SearchFacts.category_loop_cases a b c) as [R' | R']
  end; rewrite R' in HX; [|discriminate].
  injection HX as _ Hrs. subst rs. clear R'.
  set (cat := g :: cat') in *.
  set (sims := category_scores v E cat query).
  assert (Hlen : List.length sims = List.length cat).
  { unfold sims, category_scores. now rewrite !length_map. }
  rewrite !map_map. rewrite !length_map.
  split; [|split].
  - rewrite (@BoundsFacts.top_length lib sims top_k Hk).
    now rewrite Hlen.
  - apply CategoryEdgeFacts.nodup_map_on; [|apply BoundsFacts.top_nodup].
    intros x y Hx Hy Heq. cbn [index make_result] in Heq.
    apply Nat2Z.inj in Heq.
    apply RankFacts.top_in in Hx, Hy. rewrite Hlen in Hx, Hy.
    now apply (@CategoryEdgeFacts.sorted_nth_inj cat x y Hsorted).
  - rewrite Forall_map, Forall_forall. intros l Hl.
    apply RankFacts.top_in in Hl. rewrite Hlen in Hl.
    exists (nth l cat O). split; [reflexivity|].
    destruct (Hrows (nth l cat O)) as [_ Hn]; [now apply nth_In|].
    now rewrite Nat.sub_0_r in Hn.
Qed.

Lemma search_by_category_result_count_witness :
  List.length Examples.lait_category_results
  = Nat.min (Z.to_nat 5)
      (List.length (matching_rows Examples.ALIMENTAIRE 0
                      [Some Examples.ALIMENTAIRE; Some Examples.ALIMENTAIRE;
                       Some Examples.HYGIENE]))
  /\ NoDup (map index Examples.lait_category_results)
  /\ Forall (fun r => exists g, index r = Z.of_nat g
                       /\ nth_error [Some Examples.ALIMENTAIRE;
                                     Some Examples.ALIMENTAIRE;
                                     Some Examples.HYGIENE] g
                          = Some (Some Examples.ALIMENTAIRE))
       Examples.lait_category_results.
Proof.
  apply (@search_by_category_result_count Examples.sample_library
           Examples.disk Examples.built (txt "lait") Examples.ALIMENTAIRE 5
           [ReadFile CLEAN_CSV] Examples.lait_category_results
           (mkDataFrame (Some [Some Examples.ALIMENTAIRE;
                               Some Examples.ALIMENTAIRE;
                               Some Examples.HYGIENE]))).
  - vm_compute. reflexivity.
  - reflexivity.
  - reflexivity.
  - left. reflexivity.
  - lia.
Defined.

(** X13.  The rows of the CSV file are used as rows of the matrix without
    a check: when a row of the requested category lies beyond the last row
    of the matrix, [search_by_category] raises [IndexError]. *)
Theorem search_by_category_row_outside_matrix {lib : Library} fs self query
  category top_k df col v E g :
  csv_files fs CLEAN_CSV = Some df -> categorie df = Some col ->
  vectorizer self = Some v -> embeddings self = Some E ->
  nth_error col g = Some (Some category) ->
  (List.length E <= g)%nat ->
  search_by_category fs self query category top_k =
  ([ReadFile CLEAN_CSV], Raised IndexError).
Proof.
  intros Hcsv Hcol Hv HE Hg Hout.
  pose proof (@CategoryEdgeFacts.matching_rows_complete category 0%nat col g Hg)
    as Hin. simpl in Hin.
  unfold search_by_category. rewrite Hcsv, Hcol, Hv, HE.
  destruct (matching_rows category 0 col) as [|g0 cat'] eqn:Hcat;
    [contradiction|].
  unfold transform. rewrite EffFacts.bind_ret_l.
  destruct (CategoryFacts.take_rows_cases E (g0 :: cat')) as [[Hall _] | R].
  - rewrite Forall_forall in Hall. apply Hall in Hin. lia.
  - rewrite R. reflexivity.
Qed.

Lemma search_by_category_row_outside_matrix_witness :
  @search_by_category Examples.sample_library
    (mkFs (json_files Examples.disk)
       (fun _ => Some (mkDataFrame (Some [Some Examples.ALIMENTAIRE;
                                          Some Examples.ALIMENTAIRE;
                                          Some Examples.HYGIENE;
                                          Some Examples.HYGIENE]))))
    Examples.built (txt "savon") Examples.HYGIENE 5
  = ([ReadFile CLEAN_CSV], Raised IndexError).
Proof.
  apply (@search_by_category_row_outside_matrix Examples.sample_library
           (mkFs (json_files Examples.disk)
              (fun _ => Some (mkDataFrame (Some [Some Examples.ALIMENTAIRE;
                                                 Some Examples.ALIMENTAIRE;
                                                 Some Examples.HYGIENE;
                                                 Some Examples.HYGIENE]))))
           Examples.built (txt "savon") Examples.HYGIENE 5
           (mkDataFrame (Some [Some Examples.ALIMENTAIRE;
                               Some Examples.ALIMENTAIRE;
                               Some Examples.HYGIENE;
                               Some Examples.HYGIENE]))
           [Some Examples.ALIMENTAIRE; Some Examples.ALIMENTAIRE;
            Some Examples.HYGIENE; Some Examples.HYGIENE]
           (match vectorizer Examples.built with
            | Some v => v
            | None => mkVectorizer [] []
            end)
           (match embeddings Examples.built with
            | Some E => E
            | None => []
            end)
           3%nat).
  - reflexivity.
  - reflexivity.
  - vm_compute. reflexivity.
  - vm_compute. reflexivity.
  - reflexivity.
  - vm_compute. lia.
Defined.

(* ================================================================== *)
(** * Further properties of the loading and of the index *)

Module BuildFacts.
Import ListFacts VocabularyFacts.

Section WithLibrary.
Context {lib : Library}.

(** What a fit that returns has built. *)
Lemma fit_transform_shape raw t v E :
  fit_transform raw = (t, Returned (v, E)) ->
  vocabulary_ v <> []
  /\ List.length (idf_ v) = List.length (vocabulary_ v)
  /\ List.length E = List.length raw
  /\ Forall (fun row => List.length row = List.length (vocabulary_ v)) E.
Proof.
  unfold fit_transform. intros H.
  destruct (sorted_terms (map analyze raw)) as [|t0 ts] eqn:Hs;
    [discriminate|].
  destruct (Qltb _ _); [discriminate|].
  destruct (limit_features _ _) as [|u us] eqn:Hl; [discriminate|].
  inversion H; subst. clear H. cbn [vocabulary_ idf_].
  split; [discriminate|].
  split; [simpl; now rewrite ?length_map|].
  split; [now rewrite ?length_map|].
  rewrite Forall_forall. intros row Hrow.
  apply in_map_iff in Hrow. destruct Hrow as [d [<- _]].
  unfold tfidf_row, normalize_row. cbn [vocabulary_ idf_].
  rewrite !length_map, length_combine. simpl. rewrite ?length_map.
  now rewrite Nat.min_id.
Qed.

(** One document is never enough for [max_df = 0.9]. *)
Lemma fit_transform_one_document doc :
  fit_transform [doc] = ([], Raised ValueError).
Proof.
  unfold fit_transform.
  destruct (sorted_terms (map analyze [doc])); reflexivity.
Qed.

End WithLibrary.
End BuildFacts.

(** X14.  [load_products] never touches the vectoriser nor the matrix.
    When it returns [False] the file is absent and the searcher is as it
    was; when it returns [True] the products are the content of the file
    and the titles are their ['title'] fields, the empty string where a
    product has none. *)
Theorem load_products_keeps_index {lib : Library} fs self json_file t s b :
  load_products fs self json_file = (t, Returned (s, b)) ->
  vectorizer s = vectorizer self /\ embeddings s = embeddings self
  /\ (b = false -> json_files fs json_file = None /\ s = self)
  /\ (b = true ->
      json_files fs json_file = Some (products s)
      /\ titles s
         = map (fun p => dict_get p (txt "title") (JStr [])) (products s)).
Proof.
  unfold load_products, Eff.print, Eff.bind, Eff.emit, Eff.ret.
  destruct (json_files fs json_file) as [ps|]; simpl; intros H;
    inversion H; subst; simpl; repeat split; try discriminate; reflexivity.
Qed.

Lemma load_products_keeps_index_witness :
  vectorizer Examples.loaded = vectorizer (@init)
  /\ embeddings Examples.loaded = embeddings (@init)
  /\ (true = false ->
      json_files Examples.disk Examples.PRODUCTS_JSON = None
      /\ Examples.loaded = @init)
  /\ (true = true ->
      json_files Examples.disk Examples.PRODUCTS_JSON
      = Some (products Examples.loaded)
      /\ titles Examples.loaded
         = map (fun p => dict_get p (txt "title") (JStr []))
             (products Examples.loaded)).
Proof.
  apply (@load_products_keeps_index Examples.sample_library Examples.disk
           (@init) Examples.PRODUCTS_JSON
           [Print (MsgLoading Examples.PRODUCTS_JSON);
            ReadFile Examples.PRODUCTS_JSON; Print (MsgLoaded 3)]
           Examples.loaded true).
  vm_compute. reflexivity.
Defined.

(** X15.  [generate_embeddings] leaves the products and the titles as they
    are.  It returns [False] exactly when no product is loaded, and then it
    has printed one line and changed nothing. *)
Theorem generate_embeddings_keeps_catalogue {lib : Library} self t self' b :
  generate_embeddings self = (t, Returned (self', b)) ->
  products self' = products self /\ titles self' = titles self
  /\ (b = false <-> products self = [])
  /\ (b = false -> self' = self /\ t = [Print MsgNoProducts]).
Proof.
  unfold generate_embeddings. intros H.
  destruct (products self) as [|p ps] eqn:Hp.
  - inversion H; subst. rewrite Hp. repeat split; reflexivity.
  - unfold Eff.print in H. rewrite EffFacts.bind_emit in H. cbv beta in H.
    destruct (fit_transform (map preprocess_text (titles self)))
      as [tf [[v E]|e]] eqn:Hfit;
      unfold Eff.bind in H; simpl in H; [|discriminate].
    inversion H; subst. simpl. repeat split; try discriminate; assumption.
Qed.

Lemma generate_embeddings_keeps_catalogue_witness :
  products Examples.built = products Examples.loaded
  /\ titles Examples.built = titles Examples.loaded
  /\ (true = false <-> products Examples.loaded = [])
  /\ (true = false ->
      Examples.built = Examples.loaded
      /\ [Print (MsgGenerating 3); Print (MsgGenerated 3 2)]
         = [Print MsgNoProducts]).
Proof.
  apply (@generate_embeddings_keeps_catalogue Examples.sample_library
           Examples.loaded
           [Print (MsgGenerating 3); Print (MsgGenerated 3 2)]
           Examples.built true).
  vm_compute. reflexivity.
Defined.

(** X16.  A catalogue of one product cannot be indexed: with one title the
    bound [max_df = 0.9] is below [min_df = 1] (or the title holds no term
    at all), and [generate_embeddings] raises [ValueError] after its first
    line. *)
Theorem generate_embeddings_single_product {lib : Library} self :
  products self <> [] -> List.length (titles self) = 1%nat ->
  generate_embeddings self = ([Print (MsgGenerating 1)], Raised ValueError).
Proof.
  intros Hp Ht. unfold generate_embeddings.
  destruct (products self) as [|p ps]; [now elim Hp|].
  destruct (titles self) as [|title [|? ?]]; try discriminate.
  cbn [map List.length].
  rewrite BuildFacts.fit_transform_one_document. reflexivity.
Qed.

Lemma generate_embeddings_single_product_witness :
  @generate_embeddings Examples.sample_library
    (mkSearcher None [Examples.item (txt "Lait") (txt "8 DH")] None
       [JStr (txt "Lait")])
  = ([Print (MsgGenerating 1)], Raised ValueError).
Proof.
  apply (@generate_embeddings_single_product Examples.sample_library
           (mkSearcher None [Examples.item (txt "Lait") (txt "8 DH")] None
              [JStr (txt "Lait")])).
  - discriminate.
  - reflexivity.
Defined.

(** X17.  After a [generate_embeddings] that returns [True] the matrix has
    one row per title and one column per term of the vocabulary, the
    vocabulary is not empty and has one IDF weight per term; the two lines
    printed give these two sizes. *)
Theorem generate_embeddings_shape {lib : Library} self t self' :
  generate_embeddings self = (t, Returned (self', true)) ->
  exists v E,
    vectorizer self' = Some v /\ embeddings self' = Some E
    /\ vocabulary_ v <> []
    /\ List.length (idf_ v) = List.length (vocabulary_ v)
    /\ List.length E = List.length (titles self)
    /\ Forall (fun row => List.length row = List.length (vocabulary_ v)) E
    /\ t = [Print (MsgGenerating (List.length (titles self)));
            Print (MsgGenerated (List.length E)
                     (List.length (vocabulary_ v)))].
Proof.
  unfold generate_embeddings. intros H.
  destruct (products self) as [|p ps]; [inversion H|].
  unfold Eff.print in H. rewrite EffFacts.bind_emit in H. cbv beta in H.
  destruct (fit_transform (map preprocess_text (titles self)))
    as [tf [[v E]|e]] eqn:Hfit;
    unfold Eff.bind in H; simpl in H; [|discriminate].
  destruct (VocabularyFacts.fit_transform_returned _ Hfit) as [-> _].
  destruct (BuildFacts.fit_transform_shape _ Hfit) as [Hne [Hidf [Hrows Hcols]]].
  rewrite length_map in Hrows.
  inversion H; subst. exists v, E. simpl. repeat split; assumption.
Qed.

Lemma generate_embeddings_shape_witness :
  exists v E,
    vectorizer Examples.built = Some v /\ embeddings Examples.built = Some E
    /\ vocabulary_ v <> []
    /\ List.length (idf_ v) = List.length (vocabulary_ v)
    /\ List.length E = List.length (titles Examples.loaded)
    /\ Forall (fun row => List.length row = List.length (vocabulary_ v)) E
    /\ [Print (MsgGenerating 3); Print (MsgGenerated 3 2)]
       = [Print (MsgGenerating (List.length (titles Examples.loaded)));
          Print (MsgGenerated (List.length E)
                   (List.length (vocabulary_ v)))].
Proof.
  apply (@generate_embeddings_shape Examples.sample_library Examples.loaded
           [Print (MsgGenerating 3); Print (MsgGenerated 3 2)]
           Examples.built).
  vm_compute. reflexivity.
Defined.

Module VocabularyBounds.
Import ListFacts VocabularyFacts.

(** The order of Python strings is a strict total order. *)
Lemma text_ltb_irrefl a : text_ltb a a = false.
Proof.
  induction a as [|x a IH]; simpl; [reflexivity|].
  now rewrite N.ltb_irrefl, N.eqb_refl, IH.
Qed.

Lemma text_ltb_trans a b c :
  text_ltb a b = true -> text_ltb b c = true -> text_ltb a c = true.
Proof.
  revert b c. induction a as [|x a IH]; intros [|y b] [|z c]; simpl;
    try discriminate; try reflexivity.
  intros H1 H2.
  apply orb_true_iff in H1. apply orb_true_iff in H2. apply orb_true_iff.
  destruct H1 as [H1 | H1]; destruct H2 as [H2 | H2].
  - left. apply N.ltb_lt in H1, H2. apply N.ltb_lt. lia.
  - apply andb_true_iff in H2. destruct H2 as [H2 _].
    apply N.eqb_eq in H2. subst. now left.
  - apply andb_true_iff in H1. destruct H1 as [H1 _].
    apply N.eqb_eq in H1. subst. now left.
  - apply andb_true_iff in H1. apply andb_true_iff in H2.
    destruct H1 as [E1 L1], H2 as [E2 L2].
    apply N.eqb_eq in E1, E2. subst. right.
    rewrite N.eqb_refl. simpl. now apply (IH b c).
Qed.

Lemma text_ltb_total a b :
  text_eqb a b = false -> text_ltb a b = false -> text_ltb b a = true.
Proof.
  rewrite text_eqb_neq. revert b.
  induction a as [|x a IH]; intros [|y b] Hne; simpl;
    try reflexivity; try discriminate; [now elim Hne|].
  intros H. apply orb_false_iff in H. destruct H as [H1 H2].
  apply N.ltb_ge in H1.
  destruct (N.eqb_spec x y) as [-> | Hxy].
  - simpl in H2. rewrite N.ltb_irrefl, N.eqb_refl. simpl.
    apply IH; [|exact H2]. intros ->. now elim Hne.
  - assert (Hlt : (y <? x)%N = true) by (apply N.ltb_lt; lia).
    now rewrite Hlt.
Qed.

Lemma insert_term_sorted t l :
  StronglySorted (fun a b => text_ltb a b = true) l ->
  StronglySorted (fun a b => text_ltb a b = true) (insert_term t l).
Proof.
  induction 1 as [|u r Hr IH Hu]; simpl; [repeat constructor|].
  destruct (text_eqb t u) eqn:E; [now constructor|].
  destruct (text_ltb t u) eqn:L.
  - constructor; [now constructor|].
    constructor; [exact L|].
    rewrite Forall_forall in Hu |- *. intros x Hx.
    now apply (text_ltb_trans t u x L), Hu.
  - constructor; [exact IH|].
    rewrite Forall_forall in Hu |- *. intros x Hx.
    destruct (insert_term_in _ _ _ Hx) as [-> | Hx'].
    + apply text_ltb_total; [|exact L].
      apply text_eqb_neq. apply text_eqb_neq in E. congruence.
    + now apply Hu.
Qed.

Lemma sorted_terms_sorted docs :
  StronglySorted (fun a b => text_ltb a b = true) (sorted_terms docs).
Proof.
  unfold sorted_terms. induction (concat docs) as [|t l IH]; simpl;
    [constructor | now apply insert_term_sorted].
Qed.

(** Selecting positions of a list keeps its order. *)
Lemma sorted_select {A B} (R : B -> B -> Prop) (f : A * B -> bool) s l :
  StronglySorted R l ->
  StronglySorted R (map snd (filter f (combine s l))).
Proof.
  intros H. revert s. induction H as [|x l Hl IH Hx]; intros [|i s]; simpl;
    try constructor.
  destruct (f (i, x)); simpl; [|apply IH].
  constructor; [apply IH|].
  rewrite Forall_forall in Hx |- *. intros y Hy.
  apply in_map_iff in Hy. destruct Hy as [[j z] [<- Hy]].
  apply filter_In in Hy. destruct Hy as [Hy _].
  apply in_combine_r in Hy. now apply Hx.
Qed.

Lemma nodup_select {A B} (f : A * B -> bool) s (l : list B) :
  NoDup s -> NoDup (map fst (filter f (combine s l))).
Proof.
  intros H. revert l. induction H as [|i s Hi _ IH]; intros [|x l]; simpl;
    try constructor.
  destruct (f (i, x)); simpl; [|apply IH].
  constructor; [|apply IH].
  intros Hin. apply in_map_iff in Hin. destruct Hin as [[j z] [Hj Hin]].
  simpl in Hj. subst. apply filter_In in Hin. destruct Hin as [Hin _].
  apply in_combine_l in Hin. contradiction.
Qed.

Lemma sorted_nodup (l : list text) :
  StronglySorted (fun a b => text_ltb a b = true) l -> NoDup l.
Proof.
  induction 1 as [|x l _ IH Hx]; constructor; [|exact IH].
  intros Hin. rewrite Forall_forall in Hx. specialize (Hx x Hin).
  now rewrite text_ltb_irrefl in Hx.
Qed.

Section WithLibrary.
Context {lib : Library}.

(** What [_limit_features] lets through. *)
Lemma limit_features_mask docs vocab x :
  In x (limit_features docs vocab) ->
  (1 <= document_frequency x docs)%nat
  /\ (10 * document_frequency x docs <= 9 * List.length docs)%nat.
Proof.
  unfold limit_features.
  set (masked := filter _ vocab).
  assert (Hm : forall y, In y masked ->
                 (1 <= document_frequency y docs)%nat
                 /\ (10 * document_frequency y docs
                     <= 9 * List.length docs)%nat).
  { intros y Hy. apply filter_In in Hy. destruct Hy as [_ Hy].
    apply andb_true_iff in Hy. destruct Hy as [H1 H2].
    apply Qle_bool_iff in H1, H2.
    unfold Qle, min_df, max_df, Qnat, inject_Z in H1, H2.
    cbn [Qnum Qden Qmult] in H1, H2. lia. }
  destruct (_ <? _)%nat; [|apply Hm].
  intros H. apply in_map_iff in H. destruct H as [[i y] [<- H]].
  apply filter_In in H. destruct H as [H _].
  apply in_combine_r in H. now apply Hm.
Qed.

Lemma limit_features_sorted docs vocab :
  StronglySorted (fun a b => text_ltb a b = true) vocab ->
  StronglySorted (fun a b => text_ltb a b = true) (limit_features docs vocab).
Proof.
  intros H. unfold limit_features.
  set (masked := filter _ vocab).
  assert (Hm : StronglySorted (fun a b => text_ltb a b = true) masked)
    by now apply sorted_filter.
  destruct (_ <? _)%nat; [|exact Hm].
  now apply sorted_select.
Qed.

Lemma limit_features_length docs vocab :
  (List.length (limit_features docs vocab) <= max_features)%nat.
Proof.
  unfold limit_features.
  set (masked := filter _ vocab).
  destruct (max_features <? List.length masked)%nat eqn:L;
    [|now apply Nat.ltb_ge in L].
  set (keep := firstn max_features _).
  set (kept := filter _ _).
  rewrite length_map, <- (length_map fst kept).
  transitivity (List.length keep);
    [|unfold keep; rewrite length_firstn; apply Nat.le_min_l].
  apply NoDup_incl_length.
  - apply nodup_select, seq_NoDup.
  - intros i Hi. apply in_map_iff in Hi. destruct Hi as [[j z] [<- Hi]].
    apply filter_In in Hi. destruct Hi as [_ Hi]. simpl in Hi.
    apply existsb_exists in Hi. destruct Hi as [k [Hk Hjk]].
    apply Nat.eqb_eq in Hjk. now subst.
Qed.

Lemma document_frequency_all x docs :
  Forall (fun d => In x d) docs ->
  document_frequency x docs = List.length docs.
Proof.
  unfold document_frequency. induction 1 as [|d docs Hd _ IH]; simpl;
    [reflexivity|].
  replace (existsb (text_eqb x) d) with true; [simpl; now rewrite IH|].
  symmetry. apply existsb_exists. exists x. split; [exact Hd|].
  apply text_eqb_refl.
Qed.

Lemma count_term_absent t terms : ~ In t terms -> count_term t terms = 0%nat.
Proof.
  unfold count_term. induction terms as [|u r IH]; simpl; [reflexivity|].
  intros H. destruct (text_eqb t u) eqn:E.
  - apply text_eqb_eq in E. subst. elim H. now left.
  - apply IH. intros Hin. apply H. now right.
Qed.

(** A text none of whose terms is indexed projects to the zero vector. *)
Lemma tfidf_row_no_overlap v terms :
  (forall t, In t (vocabulary_ v) -> ~ In t terms) ->
  all_zero (tfidf_row v terms).
Proof.
  intros H. unfold tfidf_row. apply ZeroFacts.normalize_row_zero.
  unfold all_zero. rewrite Forall_map. rewrite Forall_forall.
  intros [t w] Hin. apply in_combine_l in Hin. cbn [fst snd].
  rewrite (count_term_absent _ _ (H t Hin)). unfold Qnat. simpl. ring.
Qed.

End WithLibrary.
End VocabularyBounds.

(** X18.  After a successful [generate_embeddings] every term of the
    vocabulary occurs in at least one processed title ([min_df = 1]) and in
    at most nine titles out of ten ([max_df = 0.9]). *)
Theorem vocabulary_document_frequency {lib : Library} self t self' v term :
  generate_embeddings self = (t, Returned (self', true)) ->
  vectorizer self' = Some v ->
  In term (vocabulary_ v) ->
  let docs := map analyze (map preprocess_text (titles self)) in
  (1 <= document_frequency term docs)%nat
  /\ (10 * document_frequency term docs <= 9 * List.length (titles self))%nat.
Proof.
  intros Hgen Hv Hin docs.
  destruct (VocabularyFacts.generate_embeddings_returned _ Hgen)
    as [v' [E [Hfit ->]]].
  simpl in Hv. inversion Hv; subst v'. clear Hv.
  destruct (VocabularyFacts.fit_transform_returned _ Hfit) as [_ [Hvoc _]].
  rewrite Hvoc in Hin.
  apply VocabularyBounds.limit_features_mask in Hin.
  fold docs in Hin. unfold docs in Hin at 3.
  now rewrite !length_map in Hin.
Qed.

Lemma vocabulary_document_frequency_witness :
  let docs :=
    map (@analyze Examples.sample_library)
      (map preprocess_text (titles Examples.loaded)) in
  (1 <= document_frequency (txt "lait") docs)%nat
  /\ (10 * document_frequency (txt "lait") docs
      <= 9 * List.length (titles Examples.loaded))%nat.
Proof.
  apply (@vocabulary_document_frequency Examples.sample_library
           Examples.loaded
           [Print (MsgGenerating 3); Print (MsgGenerated 3 2)]
           Examples.built
           (match vectorizer Examples.built with
            | Some v => v
            | None => mkVectorizer [] []
            end)
           (txt "lait")).
  - vm_compute. reflexivity.
  - vm_compute. reflexivity.
  - vm_compute. left. reflexivity.
Defined.

(** X19.  A term that every processed title contains is not indexed: after
    a successful [generate_embeddings] it is not in the vocabulary. *)
Theorem term_of_every_title_not_indexed {lib : Library} self t self' v term :
  generate_embeddings self = (t, Returned (self', true)) ->
  vectorizer self' = Some v ->
  Forall (fun title => In term (analyze (preprocess_text title)))
    (titles self) ->
  ~ In term (vocabulary_ v).
Proof.
  intros Hgen Hv Hall Hin.
  destruct (VocabularyFacts.generate_embeddings_returned _ Hgen)
    as [v' [E [Hfit ->]]].
  simpl in Hv. inversion Hv; subst v'. clear Hv.
  destruct (VocabularyFacts.fit_transform_returned _ Hfit)
    as [_ [Hvoc [_ Hne]]].
  rewrite Hvoc in Hin.
  apply VocabularyBounds.limit_features_mask in Hin.
  rewrite VocabularyBounds.document_frequency_all in Hin.
  - rewrite !length_map in Hin.
    destruct (titles self); [now elim Hne | simpl in Hin; lia].
  - rewrite map_map, Forall_map. exact Hall.
Qed.

Lemma term_of_every_title_not_indexed_witness :
  ~ In (txt "lait")
      (vocabulary_
         (fst (match @fit_transform Examples.sample_library
                       [txt "lait bio"; txt "lait"] with
               | (_, Returned r) => r
               | _ => (mkVectorizer [] [], [])
               end))).
Proof.
  apply (@term_of_every_title_not_indexed Examples.sample_library
           (mkSearcher None
              [Examples.item (txt "Lait bio") (txt "9 DH");
               Examples.item (txt "Lait") (txt "8 DH")] None
              [JStr (txt "Lait bio"); JStr (txt "Lait")])
           [Print (MsgGenerating 2); Print (MsgGenerated 2 2)]
           (mkSearcher
              (Some (fst (match @fit_transform Examples.sample_library
                                  [txt "lait bio"; txt "lait"] with
                          | (_, Returned r) => r
                          | _ => (mkVectorizer [] [], [])
                          end)))
              [Examples.item (txt "Lait bio") (txt "9 DH");
               Examples.item (txt "Lait") (txt "8 DH")]
              (Some (snd (match @fit_transform Examples.sample_library
                                  [txt "lait bio"; txt "lait"] with
                          | (_, Returned r) => r
                          | _ => (mkVectorizer [] [], [])
                          end)))
              [JStr (txt "Lait bio"); JStr (txt "Lait")])).
  - vm_compute. reflexivity.
  - reflexivity.
  - repeat constructor; vm_compute; tauto.
Defined.

(** X20.  After a successful [generate_embeddings] the vocabulary holds at
    most [max_features = 5000] terms, in strictly increasing order of
    Python's string comparison, hence no term twice. *)
Theorem vocabulary_sorted_and_bounded {lib : Library} self t self' v :
  generate_embeddings self = (t, Returned (self', true)) ->
  vectorizer self' = Some v ->
  (List.length (vocabulary_ v) <= 5000)%nat
  /\ StronglySorted (fun a b => text_ltb a b = true) (vocabulary_ v)
  /\ NoDup (vocabulary_ v).
Proof.
  intros Hgen Hv.
  destruct (VocabularyFacts.generate_embeddings_returned _ Hgen)
    as [v' [E [Hfit ->]]].
  simpl in Hv. inversion Hv; subst v'. clear Hv.
  destruct (VocabularyFacts.fit_transform_returned _ Hfit) as [_ [Hvoc _]].
  rewrite Hvoc.
  assert (Hs : StronglySorted (fun a b => text_ltb a b = true)
                 (limit_features
                    (map analyze (map preprocess_text (titles self)))
                    (sorted_terms
                       (map analyze (map preprocess_text (titles self)))))).
  { apply VocabularyBounds.limit_features_sorted,
      VocabularyBounds.sorted_terms_sorted. }
  split; [apply VocabularyBounds.limit_features_length|].
  split; [exact Hs | now apply VocabularyBounds.sorted_nodup].
Qed.

Lemma vocabulary_sorted_and_bounded_witness :
  (List.length (vocabulary_ (match vectorizer Examples.built with
                             | Some v => v
                             | None => mkVectorizer [] []
                             end)) <= 5000)%nat
  /\ StronglySorted (fun a b => text_ltb a b = true)
       (vocabulary_ (match vectorizer Examples.built with
                     | Some v => v
                     | None => mkVectorizer [] []
                     end))
  /\ NoDup (vocabulary_ (match vectorizer Examples.built with
                         | Some v => v
                         | None => mkVectorizer [] []
                         end)).
Proof.
  apply (@vocabulary_sorted_and_bounded Examples.sample_library
           Examples.loaded
           [Print (MsgGenerating 3); Print (MsgGenerated 3 2)]
           Examples.built).
  - vm_compute. reflexivity.
  - vm_compute. reflexivity.
Defined.

(** X21.  On a built index, a query none of whose terms (words and word
    pairs left by the analyser) is in the vocabulary scores zero against
    every product: [search] prints nothing and returns the empty list. *)
Theorem search_without_indexed_term {lib : Library} self v E query top_k :
  vectorizer self = Some v -> embeddings self = Some E -> E <> [] ->
  (forall term, In term (analyze (preprocess_text (JStr query))) ->
                ~ In term (vocabulary_ v)) ->
  search self query top_k = ([], Returned []).
Proof.
  intros Hv HE Hne Hq.
  rewrite (@SearchFacts.search_built lib self v E query top_k HE Hv Hne).
  apply ZeroFacts.search_loop_none, ZeroFacts.positive_zero.
  unfold scores, all_zero. rewrite Forall_map, Forall_forall. intros y _.
  apply ZeroFacts.cosine_row_zero. unfold query_vector.
  apply VocabularyBounds.tfidf_row_no_overlap.
  intros term Hin Hterm. exact (Hq term Hterm Hin).
Qed.

Lemma search_without_indexed_term_witness :
  @search Examples.sample_library Examples.built (txt "chocolat noir") 5
  = ([], Returned []).
Proof.
  apply (@search_without_indexed_term Examples.sample_library Examples.built
           (match vectorizer Examples.built with
            | Some v => v
            | None => mkVectorizer [] []
            end)
           (match embeddings Examples.built with
            | Some E => E
            | None => []
            end)
           (txt "chocolat noir") 5).
  - vm_compute. reflexivity.
  - vm_compute. reflexivity.
  - vm_compute. discriminate.
  - intros term Hin Hvoc. vm_compute in Hin, Hvoc.
    repeat (destruct Hin as [Hin | Hin];
            [subst term; intuition discriminate|]).
    contradiction.
Defined.

(* ================================================================== *)
(** * Further properties of the text normaliser *)

Module NormalFormFacts.
Import NormalizerSpec NormalizerFacts.

Lemma lower_not_space c : is_lower_ascii c = true -> isspace c = false.
Proof.
  unfold is_lower_ascii, isspace. intros H.
  apply andb_true_iff in H. destruct H as [H1 H2].
  apply N.leb_le in H1, H2.
  repeat match goal with
         | |- (_ || _)%bool = false => apply orb_false_iff; split
         | |- (_ && _)%bool = false => apply andb_false_iff
         end;
    try (apply N.eqb_neq; lia);
    try (right; apply N.leb_gt; lia);
    try (left; apply N.leb_gt; lia).
Qed.

Lemma lower_char_lower c : is_lower_ascii c = true -> lower_char c = [c].
Proof.
  unfold is_lower_ascii, lower_char, is_upper_ascii. intros H.
  apply andb_true_iff in H. destruct H as [H1 H2].
  apply N.leb_le in H1, H2.
  replace (c <=? 90)%N with false by (symmetry; apply N.leb_gt; lia).
  rewrite andb_false_r.
  replace (c =? 8490)%N with false by (symmetry; apply N.eqb_neq; lia).
  replace (c =? 304)%N with false by (symmetry; apply N.eqb_neq; lia).
  reflexivity.
Qed.

Lemma spaced_cases e b c r :
  spaced e b (c :: r) = true ->
  (is_lower_ascii c = true /\ spaced e false r = true)
  \/ (c = SPACE /\ b = false /\ spaced e true r = true).
Proof.
  cbn [spaced]. destruct (is_lower_ascii c); [now left|].
  destruct (N.eqb_spec c SPACE) as [-> | _]; [|discriminate].
  intros H. apply andb_true_iff in H. destruct H as [Hb Hr].
  right. destruct b; [discriminate | now repeat split].
Qed.

Lemma spaced_after_space e s : spaced e true s = true -> spaced e false s = true.
Proof.
  destruct s as [|c r]; cbn [spaced].
  - intros H. now rewrite orb_true_r.
  - destruct (is_lower_ascii c); [trivial|].
    destruct (c =? SPACE)%N; [discriminate | trivial].
Qed.

(** A text in normal form goes through every stage unchanged. *)
Lemma lower_spaced e b s : spaced e b s = true -> lower s = s.
Proof.
  revert b. induction s as [|c r IH]; intros b H; [reflexivity|].
  unfold lower. cbn [flat_map]. fold (lower r).
  destruct (spaced_cases _ _ _ _ H) as [[Hc Hr] | [-> [_ Hr]]].
  - rewrite (lower_char_lower _ Hc). simpl. now rewrite (IH _ Hr).
  - simpl. now rewrite (IH _ Hr).
Qed.

Lemma re_sub_class_spaced e b s :
  spaced e b s = true -> re_sub_class not_lower_nor_space [] s = s.
Proof.
  revert b. induction s as [|c r IH]; intros b H; [reflexivity|].
  cbn [re_sub_class]. unfold not_lower_nor_space at 1.
  destruct (spaced_cases _ _ _ _ H) as [[Hc Hr] | [-> [_ Hr]]].
  - rewrite Hc. simpl. now rewrite (IH _ Hr).
  - simpl. now rewrite (IH _ Hr).
Qed.

Lemma re_sub_run_spaced e b s :
  spaced e b s = true -> re_sub_run isspace [SPACE] b s = s.
Proof.
  revert b. induction s as [|c r IH]; intros b H; [reflexivity|].
  cbn [re_sub_run].
  destruct (spaced_cases _ _ _ _ H) as [[Hc Hr] | [-> [-> Hr]]].
  - rewrite (lower_not_space _ Hc). now rewrite (IH _ Hr).
  - simpl. now rewrite (IH _ Hr).
Qed.

Lemma lstrip_spaced e s : spaced e true s = true -> lstrip s = s.
Proof.
  destruct s as [|c r]; [reflexivity|]. intros H.
  destruct (spaced_cases _ _ _ _ H) as [[Hc _] | [_ [Hb _]]];
    [|discriminate].
  simpl. now rewrite (lower_not_space _ Hc).
Qed.

Lemma trim_right_spaced b s : spaced false b s = true -> trim_right s = s.
Proof.
  revert b. induction s as [|c r IH]; intros b H; [reflexivity|].
  cbn [trim_right].
  destruct (spaced_cases _ _ _ _ H) as [[Hc Hr] | [-> [-> Hr]]].
  - rewrite (IH _ Hr). destruct r; [|reflexivity].
    now rewrite (lower_not_space _ Hc).
  - rewrite (IH _ Hr). destruct r; [discriminate | reflexivity].
Qed.

Lemma preprocess_text_fixed s :
  normal s = true -> preprocess_text (JStr s) = s.
Proof.
  destruct s as [|c r]; [reflexivity|].
  unfold normal. set (s := c :: r). intros H.
  unfold preprocess_text.
  rewrite (lower_spaced _ _ _ H), (re_sub_class_spaced _ _ _ H).
  rewrite (re_sub_run_spaced _ _ _ (spaced_after_space _ _ H)).
  unfold strip. rewrite (lstrip_spaced _ _ H).
  rewrite rev_lstrip_rev. now apply trim_right_spaced with (b := true).
Qed.

(** The stages of the normaliser lead to the normal form. *)
Lemma collapse_spaced t :
  Forall (fun c => keep_char c = true) t ->
  spaced true false (collapse_whitespace t) = true.
Proof.
  induction 1 as [|c r Hc Hr IH]; [reflexivity|].
  assert (Hlow : forall x, keep_char x = true -> isspace x = false ->
                           is_lower_ascii x = true).
  { intros x Hx Hs. unfold keep_char in Hx. rewrite Hs in Hx.
    now rewrite orb_false_r in Hx. }
  cbn [collapse_whitespace]. destruct (isspace c) eqn:Sc.
  - destruct r as [|c2 r']; [reflexivity|].
    destruct (isspace c2) eqn:Sc2; [exact IH|].
    cbn [collapse_whitespace] in IH |- *. rewrite Sc2 in IH |- *.
    inversion Hr as [|? ? Hc2 _]; subst.
    pose proof (Hlow c2 Hc2 Sc2) as L2.
    cbn [spaced] in IH |- *. rewrite L2 in IH |- *. simpl. exact IH.
  - cbn [spaced]. now rewrite (Hlow c Hc Sc).
Qed.

Lemma trim_left_spaced b u :
  spaced true b u = true ->
  trim_left u = [] \/ spaced true true (trim_left u) = true.
Proof.
  revert b. induction u as [|c r IH]; intros b H; [now left|].
  destruct (spaced_cases _ _ _ _ H) as [[Hc Hr] | [-> [_ Hr]]].
  - right. cbn [trim_left]. rewrite (lower_not_space _ Hc).
    cbn [spaced]. now rewrite Hc.
  - simpl. exact (IH _ Hr).
Qed.

Lemma trim_right_normal b w :
  spaced true b w = true ->
  trim_right w = [] \/ spaced false b (trim_right w) = true.
Proof.
  revert b. induction w as [|c r IH]; intros b H; [now left|].
  cbn [trim_right].
  destruct (spaced_cases _ _ _ _ H) as [[Hc Hr] | [-> [-> Hr]]].
  - right. destruct (IH _ Hr) as [-> | Hn].
    + rewrite (lower_not_space _ Hc). cbn [spaced]. now rewrite Hc.
    + destruct (trim_right r) as [|y r'] eqn:E.
      * rewrite (lower_not_space _ Hc). cbn [spaced]. now rewrite Hc.
      * cbn [spaced] in Hn |- *. now rewrite Hc.
  - destruct (IH _ Hr) as [-> | Hn]; [now left|].
    destruct (trim_right r) as [|y r'] eqn:E; [now left|].
    right. cbn [spaced] in Hn |- *. exact Hn.
Qed.

Lemma preprocess_text_normal v : normal (preprocess_text v) = true.
Proof.
  destruct v as [| | |s| |]; try reflexivity.
  unfold preprocess_text.
  rewrite re_sub_class_delete, (proj1 (re_sub_run_collapse _)), strip_trim.
  unfold trim.
  assert (Hc : spaced true false
                 (collapse_whitespace (strip_other (lower s))) = true).
  { apply collapse_spaced. unfold strip_other. rewrite Forall_forall.
    intros c Hin. now apply filter_In in Hin. }
  destruct (trim_left_spaced _ _ Hc) as [-> | Hl]; [reflexivity|].
  destruct (trim_right_normal _ _ Hl) as [-> | Hr]; [reflexivity|].
  unfold normal. now destruct (trim_right _).
Qed.

End NormalFormFacts.

(** X22.  Whatever its argument, [preprocess_text] returns words of
    lowercase ASCII letters separated by single spaces, with no space at
    either end, and applying it to its own result changes nothing. *)
Theorem preprocess_text_normal_form (v : json) :
  normal (preprocess_text v) = true
  /\ preprocess_text (JStr (preprocess_text v)) = preprocess_text v.
Proof.
  split; [apply NormalFormFacts.preprocess_text_normal|].
  apply NormalFormFacts.preprocess_text_fixed,
    NormalFormFacts.preprocess_text_normal.
Qed.

(** X23.  A text that is already made of lowercase ASCII words separated
    by single spaces is returned by [preprocess_text] as it is. *)
Theorem preprocess_text_keeps_normal_text (s : text) :
  normal s = true -> preprocess_text (JStr s) = s.
Proof. apply NormalFormFacts.preprocess_text_fixed. Qed.

Lemma preprocess_text_keeps_normal_text_witness :
  preprocess_text (JStr (txt "lait bio")) = txt "lait bio".
Proof.
  apply (preprocess_text_keeps_normal_text (txt "lait bio")).
  reflexivity.
Defined.

(* ================================================================== *)
(** * Further properties of the batch and of the console *)

Module ConsoleFacts.
Import ListFacts SearchFacts BatchFacts.


Lemma written_app t1 t2 : written (t1 ++ t2) = written t1 ++ written t2.
Proof. unfold written. apply flat_map_app. Qed.

Lemma written_console_only t :
  console_only t -> written (map Method t) = [].
Proof.
  induction 1 as [|e t He _ IH]; [reflexivity|].
  cbn [map]. change (written (Method e :: map Method t))
    with ((match e with WriteFile p => [p] | _ => [] end)
          ++ written (map Method t)).
  rewrite IH. now destruct e.
Qed.

Lemma bind_say {B} n (k : unit -> Session.M B) stdin :
  Session.bind (Session.say n) k stdin =
  (Say n :: Session.actions (k tt stdin), Session.result_of (k tt stdin),
   Session.unread (k tt stdin)).
Proof.
  unfold Session.bind, Session.say, Session.actions, Session.result_of,
    Session.unread.
  now destruct (k tt stdin) as [[t r] rest].
Qed.

Lemma bind_call_returned {A B} (m : Eff.M A) (k : A -> Session.M B) stdin
  t a :
  m = (t, Returned a) ->
  Session.bind (Session.call m) k stdin =
  (map Method t ++ Session.actions (k a stdin),
   Session.result_of (k a stdin), Session.unread (k a stdin)).
Proof.
  intros ->.
  unfold Session.bind, Session.call, Session.actions, Session.result_of,
    Session.unread. simpl.
  now destruct (k a stdin) as [[t' r] rest].
Qed.

Lemma bind_call_raised {A B} (m : Eff.M A) (k : A -> Session.M B) stdin
  t e :
  m = (t, Raised e) ->
  Session.bind (Session.call m) k stdin = (map Method t, Failed (Exn e), stdin).
Proof. intros ->. reflexivity. Qed.

Section WithLibrary.
Context {lib : Library}.







(** The interactive loop writes no file, whatever the state. *)
Lemma interactive_loop_writes_nothing self stdin :
  written (Session.actions (interactive_loop self stdin)) = [].
Proof.
  unfold Session.actions.
  induction stdin as [|line rest IH]; [reflexivity|].
  cbn [interactive_loop].
  destruct (text_eqb (lower (strip line)) (txt "quit")); [reflexivity|].
  destruct (strip line) as [|c q].
  - destruct (interactive_loop self rest) as [[t r] rest']. exact IH.
  - assert (Hc : console_only
                   (Eff.trace (results <- search self (c :: q) 5 ;;
                               display_results results (c :: q)))).
    { apply TraceFacts.console_only_bind;
        [apply IoFacts.search_quiet | intros; apply IoFacts.display_quiet]. }
    destruct (results <- search self (c :: q) 5 ;;
              display_results results (c :: q)) as [t [u|e]];
      unfold Eff.trace in Hc; cbn [fst] in Hc.
    + destruct (interactive_loop self rest) as [[t' r] rest'].
      cbn [fst] in IH |- *.
      change (written (Input PromptSearch :: ?l)) with (written l).
      rewrite written_app, IH, (written_console_only Hc). reflexivity.
    + cbn [fst].
      change (written (Input PromptSearch :: ?l)) with (written l).
      exact (written_console_only Hc).
Qed.

End WithLibrary.
End ConsoleFacts.



(** X25.  For a score between 0 and 100 per cent the bar of
    [display_results] has exactly twenty cells: one full cell for each
    whole five per cent of the score, then light cells. *)
Theorem bar_has_twenty_cells (r : result) :
  0 <= score_pourcentage r -> score_pourcentage r <= 100 ->
  exists n : nat,
    (n <= 20)%nat
    /\ bar r = repeat FULL_BLOCK n ++ repeat LIGHT_SHADE (20 - n)
    /\ List.length (bar r) = 20%nat
    /\ inject_Z (Z.of_nat n) * 5 <= score_pourcentage r
    /\ score_pourcentage r < (inject_Z (Z.of_nat n) + 1) * 5.
Proof.
  unfold bar, bar_length, int_of_float, str_repeat.
  destruct (score_pourcentage r) as [a b]. intros H0 H100.
  unfold Qle in H0, H100. cbn [Qnum Qden] in H0, H100.
  unfold Qdiv, Qinv, Qmult. cbn [Qnum Qden].
  rewrite Z.mul_1_r.
  assert (Ha : (0 <= a)%Z) by lia.
  assert (Hb : (0 < Zpos (b * 5))%Z) by lia.
  rewrite (Z.quot_div_nonneg a (Zpos (b * 5)) Ha Hb).
  set (n := (a / Zpos (b * 5))%Z).
  assert (Hn0 : (0 <= n)%Z) by (apply Z.div_pos; lia).
  assert (Hlow : (Zpos (b * 5) * n <= a)%Z) by (apply Z.mul_div_le; lia).
  assert (Hup : (a < Zpos (b * 5) * Z.succ n)%Z)
    by (apply Z.mul_succ_div_gt; lia).
  assert (Hn20 : (n <= 20)%Z) by nia.
  exists (Z.to_nat n).
  replace (Z.to_nat (20 - n)) with (20 - Z.to_nat n)%nat by lia.
  split; [lia|]. split; [reflexivity|].
  split; [rewrite length_app, !repeat_length; lia|].
  rewrite Z2Nat.id by exact Hn0.
  unfold Qle, Qlt, Qplus, Qmult, inject_Z. cbn [Qnum Qden].
  split; nia.
Qed.

Lemma bar_has_twenty_cells_witness :
  exists n : nat,
    (n <= 20)%nat
    /\ bar (mkResult 1 JNull JNull JNull (37 # 100) (37 # 100 * 100))
       = repeat FULL_BLOCK n ++ repeat LIGHT_SHADE (20 - n)
    /\ List.length
         (bar (mkResult 1 JNull JNull JNull (37 # 100) (37 # 100 * 100)))
       = 20%nat
    /\ inject_Z (Z.of_nat n) * 5 <= 37 # 100 * 100
    /\ 37 # 100 * 100 < (inject_Z (Z.of_nat n) + 1) * 5.
Proof.
  apply (bar_has_twenty_cells
           (mkResult 1 JNull JNull JNull (37 # 100) (37 # 100 * 100)));
    vm_compute; discriminate.
Defined.





(** X28.  When the catalogue file is absent, [main] stops after the
    file-not-found line of [load_products]: it builds nothing, writes no
    file and reads no line of the input. *)
Theorem main_missing_catalogue {lib : Library} fs stdin :
  json_files fs DEFAULT_JSON = None ->
  main fs stdin =
  ([Say NoteMainHeader; Say NoteInit;
    Method (Print (MsgLoading DEFAULT_JSON));
    Method (ReadFile DEFAULT_JSON);
    Method (Print (MsgFileNotFound DEFAULT_JSON))],
   Done tt, stdin).
Proof.
  intros H. unfold main. rewrite !ConsoleFacts.bind_say.
  rewrite (@ConsoleFacts.bind_call_returned _ _ _ _ stdin
             [Print (MsgLoading DEFAULT_JSON); ReadFile DEFAULT_JSON;
              Print (MsgFileNotFound DEFAULT_JSON)] (init, false)).
  - reflexivity.
  - unfold load_products. rewrite H. reflexivity.
Qed.

Lemma main_missing_catalogue_witness :
  @main Examples.sample_library (mkFs (fun _ => None) (fun _ => None))
    [txt "oui"]
  = ([Say NoteMainHeader; Say NoteInit;
      Method (Print (MsgLoading DEFAULT_JSON));
      Method (ReadFile DEFAULT_JSON);
      Method (Print (MsgFileNotFound DEFAULT_JSON))],
     Done tt, [txt "oui"]).
Proof.
  apply (@main_missing_catalogue Examples.sample_library
           (mkFs (fun _ => None) (fun _ => None)) [txt "oui"]).
  reflexivity.
Defined.

Module MainFacts.
Import ConsoleFacts.

Section WithLibrary.
Context {lib : Library}.

Lemma load_products_cases fs self path :
  (exists ps,
     json_files fs path = Some ps
     /\ load_products fs self path =
        ([Print (MsgLoading path); ReadFile path;
          Print (MsgLoaded (List.length ps))],
         Returned (mkSearcher (vectorizer self) ps (embeddings self)
                     (map (fun p => dict_get p (txt "title") (JStr [])) ps),
                   true)))
  \/ (json_files fs path = None
      /\ load_products fs self path =
         ([Print (MsgLoading path); ReadFile path;
           Print (MsgFileNotFound path)],
          Returned (self, false))).
Proof.
  unfold load_products. destruct (json_files fs path) as [ps|];
    [left; exists ps | right]; split; reflexivity.
Qed.

Lemma after_export_writes_nothing searcher stdin :
  written (Session.actions (after_export searcher stdin)) = [].
Proof.
  unfold after_export. rewrite bind_say.
  unfold Session.actions at 1. cbn [fst].
  change (written (Say NoteInteractiveOffer :: ?l)) with (written l).
  destruct stdin as [|line rest]; [reflexivity|].
  unfold Session.bind at 1. cbn [Session.input].
  destruct (existsb _ _).
  - unfold interactive_search. unfold Session.bind at 1.
    rewrite bind_say.
    pose proof (interactive_loop_writes_nothing searcher rest) as Hw.
    unfold Session.actions, Session.result_of, Session.unread in *.
    destruct (interactive_loop searcher rest) as [[t r] rest'].
    cbn [fst snd] in *. destruct r as [[]|f]; cbn.
    + change (written (Input PromptAnswer :: Say NoteInteractiveHeader :: ?l))
        with (written l).
      rewrite written_app, Hw. reflexivity.
    + exact Hw.
  - reflexivity.
Qed.

End WithLibrary.
End MainFacts.

(** X29.  [main] writes a file only when both [load_products] and
    [generate_embeddings] have returned [True]: it then writes
    [search_results.json], once, whatever is typed afterwards; in every
    other run it writes nothing. *)
Theorem main_writes_after_build {lib : Library} fs stdin :
  written (Session.actions (main fs stdin)) =
  match Eff.value (load_products fs init DEFAULT_JSON) with
  | Returned (searcher, true) =>
      match Eff.value (generate_embeddings searcher) with
      | Returned (_, true) => [DEFAULT_EXPORT]
      | _ => []
      end
  | _ => []
  end.
Proof.
  unfold main. rewrite !ConsoleFacts.bind_say.
  unfold Session.actions at 1 2. cbn [fst].
  change (written (Say NoteMainHeader :: Say NoteInit :: ?l))
    with (written l).
  destruct (MainFacts.load_products_cases fs init DEFAULT_JSON)
    as [[ps [Hps Hload]] | [Hnone Hload]].
  2: { rewrite (ConsoleFacts.bind_call_returned _ _ Hload), Hload.
       reflexivity. }
  rewrite (ConsoleFacts.bind_call_returned _ _ Hload), Hload.
  cbv beta iota. cbn [negb Eff.value snd].
  set (s1 := mkSearcher (vectorizer init) ps (embeddings init) _).
  unfold Session.actions at 1. cbn [fst]. rewrite ConsoleFacts.written_app.
  cbn [map written flat_map app].
  pose proof (IoFacts.generate_embeddings_quiet s1) as Hquiet.
  destruct (generate_embeddings s1) as [t2 [[s2 b2]|e]] eqn:Hgen;
    unfold Eff.trace in Hquiet; cbn [fst] in Hquiet.
  2: { rewrite (ConsoleFacts.bind_call_raised _ _ eq_refl).
       unfold Session.actions. cbn [fst snd].
       exact (ConsoleFacts.written_console_only Hquiet). }
  rewrite (ConsoleFacts.bind_call_returned _ _ eq_refl).
  unfold Session.actions at 1. cbn [fst]. rewrite ConsoleFacts.written_app.
  rewrite (ConsoleFacts.written_console_only Hquiet). cbn [app].
  cbv beta iota. destruct b2; cbn [negb]; [|reflexivity].
  rewrite ConsoleFacts.bind_say.
  unfold Session.actions at 1. cbn [fst].
  change (written (Say NoteExamples :: ?l)) with (written l).
  assert (W : well_formed s2).
  { exact (proj2 (@well_formed_after_build lib fs DEFAULT_JSON _ s1 true t2
                     s2 Hload Hgen)). }
  destruct (@BatchFacts.batch_loop_spec lib s2 3 test_queries W [])
    as [tb [d [Hrun _]]].
  assert (Hbatch : batch_search s2 test_queries 3
                   = (Print (MsgBatchHeader (List.length test_queries)) :: tb,
                      Returned d)).
  { unfold batch_search, Eff.print. rewrite EffFacts.bind_emit.
    now rewrite Hrun. }
  pose proof (IoFacts.batch_search_quiet s2 test_queries 3) as Hbq.
  rewrite Hbatch in Hbq. unfold Eff.trace in Hbq. cbn [fst] in Hbq.
  rewrite (ConsoleFacts.bind_call_returned _ _ Hbatch).
  unfold Session.actions at 1. cbn [fst]. rewrite ConsoleFacts.written_app.
  rewrite (ConsoleFacts.written_console_only Hbq). cbn [app].
  rewrite (@ConsoleFacts.bind_call_returned _ _ _ _ stdin
             [WriteFile DEFAULT_EXPORT; Print (MsgExported DEFAULT_EXPORT)]
             tt eq_refl).
  unfold Session.actions at 1. cbn [fst]. rewrite ConsoleFacts.written_app.
  change (written (map Method [WriteFile DEFAULT_EXPORT;
                               Print (MsgExported DEFAULT_EXPORT)]))
    with [DEFAULT_EXPORT].
  fold (after_export s2).
  now rewrite MainFacts.after_export_writes_nothing.
Qed.

(** X30.  When the catalogue loads and the index builds, [main] runs the
    batch of its five test queries with [top_k = 3], exports the result to
    [search_results.json] and reads one line; an answer other than [oui],
    [yes], [o] or [y] (stripped, in any case) ends the program normally
    with the thanks, the later lines of the input left unread. *)
Theorem main_declines_interactive_mode {lib : Library} fs t1 s1 t2 s2 line
  rest :
  load_products fs init DEFAULT_JSON = (t1, Returned (s1, true)) ->
  generate_embeddings s1 = (t2, Returned (s2, true)) ->
  existsb (text_eqb (lower (strip line)))
    [txt "oui"; txt "yes"; txt "o"; txt "y"] = false ->
  exists d,
    batch_search s2 test_queries 3 = (Eff.trace (batch_search s2 test_queries 3),
                                      Returned d)
    /\ main fs (line :: rest) =
       ([Say NoteMainHeader; Say NoteInit]
        ++ map Method t1 ++ map Method t2
        ++ Say NoteExamples
           :: map Method (Eff.trace (batch_search s2 test_queries 3))
        ++ [Method (WriteFile DEFAULT_EXPORT);
            Method (Print (MsgExported DEFAULT_EXPORT));
            Say NoteInteractiveOffer; Input PromptAnswer;
            Say NoteThanks; Say NoteProgramEnd],
        Done tt, rest).
Proof.
  intros Hload Hgen Hno.
  assert (W : well_formed s2).
  { exact (proj2 (@well_formed_after_build lib fs DEFAULT_JSON t1 s1 true t2
                     s2 Hload Hgen)). }
  destruct (@BatchFacts.batch_loop_spec lib s2 3 test_queries W [])
    as [tb [d [Hrun _]]].
  assert (Hbatch : batch_search s2 test_queries 3
                   = (Print (MsgBatchHeader (List.length test_queries)) :: tb,
                      Returned d)).
  { unfold batch_search, Eff.print. rewrite EffFacts.bind_emit.
    now rewrite Hrun. }
  exists d. split; [now rewrite Hbatch|].
  unfold main. rewrite !ConsoleFacts.bind_say.
  rewrite (ConsoleFacts.bind_call_returned _ _ Hload).
  cbv beta iota. cbn [negb].
  rewrite (ConsoleFacts.bind_call_returned _ _ Hgen).
  cbv beta iota. cbn [negb].
  rewrite ConsoleFacts.bind_say.
  rewrite (ConsoleFacts.bind_call_returned _ _ Hbatch).
  rewrite (@ConsoleFacts.bind_call_returned _ _ _ _ (line :: rest)
             [WriteFile DEFAULT_EXPORT; Print (MsgExported DEFAULT_EXPORT)]
             tt eq_refl).
  fold (after_export s2).
  assert (Htail : after_export s2 (line :: rest)
                  = ([Say NoteInteractiveOffer; Input PromptAnswer;
                      Say NoteThanks; Say NoteProgramEnd], Done tt, rest)).
  { unfold after_export, Session.bind, Session.say, Session.input.
    cbv beta iota. rewrite Hno. reflexivity. }
  rewrite Htail, Hbatch.
  unfold Session.actions, Session.result_of, Session.unread, Eff.trace.
  cbn [fst snd app map]. reflexivity.
Qed.

Lemma main_declines_interactive_mode_witness :
  exists d,
    @batch_search Examples.sample_library Examples.built test_queries 3
    = (Eff.trace (@batch_search Examples.sample_library Examples.built
                    test_queries 3),
       Returned d)
    /\ @main Examples.sample_library Examples.disk [txt " Non"; txt "lait"] =
       ([Say NoteMainHeader; Say NoteInit]
        ++ map Method [Print (MsgLoading DEFAULT_JSON); ReadFile DEFAULT_JSON;
                       Print (MsgLoaded 3)]
        ++ map Method [Print (MsgGenerating 3); Print (MsgGenerated 3 2)]
        ++ Say NoteExamples
           :: map Method
                (Eff.trace (@batch_search Examples.sample_library
                              Examples.built test_queries 3))
        ++ [Method (WriteFile DEFAULT_EXPORT);
            Method (Print (MsgExported DEFAULT_EXPORT));
            Say NoteInteractiveOffer; Input PromptAnswer;
            Say NoteThanks; Say NoteProgramEnd],
        Done tt, [txt "lait"]).
Proof.
  apply (@main_declines_interactive_mode Examples.sample_library
           Examples.disk
           [Print (MsgLoading DEFAULT_JSON); ReadFile DEFAULT_JSON;
            Print (MsgLoaded 3)]
           Examples.loaded
           [Print (MsgGenerating 3); Print (MsgGenerated 3 2)]
           Examples.built (txt " Non") [txt "lait"]).
  - vm_compute. reflexivity.
  - vm_compute. reflexivity.
  - vm_compute. reflexivity.
Defined.
